(** * RIOS coordinate test ([rios/bin/testcoords.py])

    A shallow embedding of the coordinate test of RIOS: the hard-wired
    expected coordinate lists, the comparison routines [checkCoordList]
    and [checkCoords], the per-block callback [getCoords] and the driver
    [run], with the properties the test's description states about them. *)

From Stdlib Require Import ZArith QArith Qcanon Floats Uint63 Lia.
From stdpp Require Import base option list strings gmap.

Local Open Scope Z_scope.

(** ** Python numbers

    The module mixes Python ints (arbitrary precision, modelled as [Z])
    with floats.  The float side is kept abstract: a [Number] provides
    the operations the module applies to floats.  Two instances are
    given below, exact rationals and IEEE binary64. *)

Class Number (num : Type) := {
  add : num -> num -> num;
  sub : num -> num -> num;
  mul : num -> num -> num;
  (** Python's [==] on two floats *)
  eqb : num -> num -> bool;
  (** conversion of an int operand, as in [float(n)] or [x + n] *)
  of_int : Z -> num;
  (** the literal [0.5] *)
  half : num
}.

Declare Scope num_scope.
Delimit Scope num_scope with num.
Infix "+" := add : num_scope.
Infix "-" := sub : num_scope.
Infix "*" := mul : num_scope.
Notation "$ z" := (of_int z%Z) (at level 5, format "$ z") : num_scope.

(** Arithmetic without rounding: addition and subtraction may be
    reordered, and [==] decides equality. *)
Class ExactNumber (num : Type) `{Number num} : Prop := {
  add_sub_swap : forall a b c : num, (a + b - c = a - c + b)%num;
  eqb_eq : forall a b : num, eqb a b = true <-> a = b
}.

(** Exact rationals. *)
#[export] Instance Qc_Number : Number Qc := {|
  add := Qcplus;
  sub := Qcminus;
  mul := Qcmult;
  eqb := fun a b => Qeq_bool a b;
  of_int := fun z => Q2Qc (inject_Z z);
  half := Q2Qc (1 # 2)
|}.

(** IEEE binary64, the Python float.  An int operand is converted by
    rounding it to the nearest float, ties to even, which is exact below
    2^53.  Python raises [OverflowError] for an int beyond the largest
    float, where this conversion gives an infinity. *)
Definition float_of_int (z : Z) : float :=
  SF2Prim (binary_normalize prec emax z 0 false).

#[export] Instance float_Number : Number float := {|
  add := PrimFloat.add;
  sub := PrimFloat.sub;
  mul := PrimFloat.mul;
  eqb := PrimFloat.eqb;
  of_int := float_of_int;
  half := 0.5%float
|}.

(** The float that holds [n / 2], for an int [n].  Binary64 holds every
    integer and every half integer of magnitude below 2^52 as it is;
    these are the numbers on which the arithmetic of the module does
    not round. *)
Definition halves (n : Z) : spec_float :=
  binary_normalize prec emax n (-1) false.

Definition fl (n : Z) : float := SF2Prim (halves n).

(** [range(n)] *)
Definition range (n : nat) : list Z := Z.of_nat <$> seq 0 n.

(** ** The module constants *)

(** The constants of [riostestutils] and [applier] the module reads.
    Neither file is among the sources at hand, so the four values are
    parameters of the development; all four are Python ints. *)
Class Defaults := {
  DEFAULT_XLEFT : Z;
  DEFAULT_YTOP : Z;
  DEFAULT_PIXSIZE : Z;
  DEFAULTWINDOWXSIZE : Z
}.

Definition TESTNAME : string := "TESTCOORDS".

Section Constants.
Context {num : Type} `{Number num} `{Defaults}.
Local Open Scope num_scope.

Definition XSTART : num := $DEFAULT_XLEFT.
Definition YSTART : num := $DEFAULT_YTOP.
Definition PIX : Z := DEFAULT_PIXSIZE.
Definition STEP : Z := (PIX * DEFAULTWINDOWXSIZE)%Z.
Definition HALFPIX : num := half * $PIX.
Definition OLAP : Z := 2.
Definition MARGIN : Z := (OLAP * PIX)%Z.
Definition OFFSET_2ND_IMAGE : Z := (100 * PIX)%Z.

Definition CORNERS_1FILE_NOOVERLAP : list (num * num) :=
  i ← range 3; j ← range 3;
  [ (XSTART + $(j * STEP), YSTART - $(i * STEP)) ].

Definition CENTRES_1FILE_NOOVERLAP : list (num * num) :=
  i ← range 3; j ← range 3;
  [ (XSTART + $(j * STEP) + HALFPIX, YSTART - $(i * STEP) - HALFPIX) ].

Definition CORNERS_1FILE_OVERLAP2 : list (num * num) :=
  i ← range 3; j ← range 3;
  [ (XSTART + $(j * STEP) - $MARGIN, YSTART - $(i * STEP) + $MARGIN) ].

Definition CENTRES_1FILE_OVERLAP2 : list (num * num) :=
  i ← range 3; j ← range 3;
  [ (XSTART + $(j * STEP) + HALFPIX - $MARGIN,
     YSTART - $(i * STEP) - HALFPIX + $MARGIN) ].

Definition CORNERS_2FILE_OVERLAP2 : list (num * num) :=
  i ← range 2; j ← range 2;
  [ (XSTART + $OFFSET_2ND_IMAGE + $(j * STEP) - $MARGIN,
     YSTART - $OFFSET_2ND_IMAGE - $(i * STEP) + $MARGIN) ].

Definition CENTRES_2FILE_OVERLAP2 : list (num * num) :=
  i ← range 2; j ← range 2;
  [ (XSTART + $OFFSET_2ND_IMAGE + $(j * STEP) + HALFPIX - $MARGIN,
     YSTART - $OFFSET_2ND_IMAGE - $(i * STEP) - HALFPIX + $MARGIN) ].

(** A coordinate moved half a pixel right and down: from the corner of
    a pixel to its centre. *)
Definition to_centre (c : num * num) : num * num :=
  (c.1 + HALFPIX, c.2 - HALFPIX).

(** A coordinate moved outwards (left and up) by the overlap margin. *)
Definition outward (c : num * num) : num * num :=
  (c.1 - $MARGIN, c.2 + $MARGIN).

(** A coordinate of the first raster's grid moved to the second raster,
    100 pixels to the right and down. *)
Definition to_second_image (c : num * num) : num * num :=
  (c.1 + $OFFSET_2ND_IMAGE, c.2 - $OFFSET_2ND_IMAGE).

(** Every expected centre is the expected corner of the same index
    moved to the centre of its pixel, in each of the three scenarios. *)
Definition centres_are_corners_moved_to_centre : Prop :=
  forall k : nat,
    CENTRES_1FILE_NOOVERLAP !! k = to_centre <$> CORNERS_1FILE_NOOVERLAP !! k
    /\ CENTRES_1FILE_OVERLAP2 !! k = to_centre <$> CORNERS_1FILE_OVERLAP2 !! k
    /\ CENTRES_2FILE_OVERLAP2 !! k = to_centre <$> CORNERS_2FILE_OVERLAP2 !! k.

(** How far from zero the expected coordinates along one axis and the
    steps of their computation can get: the origin, two blocks, and the
    100 pixels of the second raster with the margin and the half
    pixel. *)
Definition reach (origin : Z) : Z :=
  (Z.abs origin + 2 * Z.abs STEP + 103 * Z.abs PIX)%Z.

(** The constants are small enough for binary64 to hold every expected
    coordinate, and every step of its computation, without rounding. *)
Definition in_range : Prop :=
  (reach DEFAULT_XLEFT < 2 ^ 51)%Z /\ (reach DEFAULT_YTOP < 2 ^ 51)%Z.

(** The two-file lists read as a grid over the union of the two rasters,
    whose top left corner is [(XSTART, YSTART)]. *)
Definition twofile_grid_from_union_origin : Prop :=
  (forall i j : nat, (i < 2)%nat -> (j < 2)%nat ->
     CORNERS_2FILE_OVERLAP2 !! (2 * i + j)%nat
       = Some (XSTART + $(Z.of_nat j * STEP) - $MARGIN,
               YSTART - $(Z.of_nat i * STEP) + $MARGIN))
  /\ length CORNERS_2FILE_OVERLAP2 = 4%nat
  /\ length CENTRES_2FILE_OVERLAP2 = 4%nat.

End Constants.

(** ** Python values, exceptions and effects *)

(** The values the functions of the module return. *)
Inductive pyval :=
  | PyNone
  | PyBool (b : bool).

(** Truth value testing, as in [not ok]. *)
Definition truthy (v : pyval) : bool :=
  match v with
  | PyNone => false
  | PyBool b => b
  end.

(** The exceptions the module itself can raise, and those of the calls
    that leave it. *)
Inductive exn :=
  | IndexError
  | AttributeError
  | Failure (what : string).

(** The outcome of evaluating an expression or a call. *)
Inductive result (A : Type) :=
  | Returned (a : A)
  | Raised (e : exn).
Arguments Returned {A} a.
Arguments Raised {A} e.

(** Code that reads and mutates a state [S] and may raise: the state it
    has reached survives the exception. *)
Definition prog (S A : Type) : Type := S -> result A * S.

Definition ret {S A} (a : A) : prog S A := fun s => (Returned a, s).

Definition bind {S A B} (m : prog S A) (k : A -> prog S B) : prog S B :=
  fun s =>
    match m s with
    | (Returned a, s') => k a s'
    | (Raised e, s') => (Raised e, s')
    end.

(** An expression that touches no state. *)
Definition eval {S A} (r : result A) : prog S A := fun s => (r, s).

Declare Scope prog_scope.
Delimit Scope prog_scope with prog.
Notation "x <- m ;; k" := (bind m (fun x => k))
  (at level 20, m at level 99, k at level 200, only parsing) : prog_scope.
Notation "' pat <- m ;; k" := (bind m (fun pat => k))
  (at level 20, pat pattern, m at level 99, k at level 200, only parsing)
  : prog_scope.
Notation "m ;; k" := (bind m (fun _ => k))
  (at level 100, k at level 200, right associativity, only parsing)
  : prog_scope.

(** [for a in l: body(a)] *)
Fixpoint for_each {S A} (l : list A) (body : A -> prog S pyval) : prog S unit :=
  match l with
  | [] => ret tt
  | a :: l' => (body a ;; for_each l' body)%prog
  end.

(** [l[i]] on a list, with Python's negative indices. *)
Definition getitem {A} (l : list A) (i : Z) : result A :=
  let i' := if i <? 0 then i + Z.of_nat (length l) else i in
  if i' <? 0 then Raised IndexError
  else match l !! Z.to_nat i' with
       | Some a => Returned a
       | None => Raised IndexError
       end.

(** ** [checkCoordList] *)

Section CheckCoordList.
Context {A : Type}.
(** Python's [!=] on two elements *)
Variable ne : A -> A -> bool.

(** The [for] loop of [checkCoordList], over the indices still to
    visit: it runs to the end, also once [ok] is cleared. *)
Fixpoint checkCoordList_loop (list1 list2 : list A) (indices : list Z)
    (ok : bool) : result bool :=
  match indices with
  | [] => Returned ok
  | i :: rest =>
      match getitem list1 i with
      | Raised e => Raised e
      | Returned a =>
          match getitem list2 i with
          | Raised e => Raised e
          | Returned b =>
              checkCoordList_loop list1 list2 rest
                (if ne a b then false else ok)
          end
      end
  end.

Definition checkCoordList (list1 list2 : list A) : result bool :=
  let ok := true in
  let ok := if negb (length list1 =? length list2)%nat then false else ok in
  if ok then checkCoordList_loop list1 list2 (range (length list1)) ok
  else Returned ok.

(** The two lists have the same length and no two elements at the same
    index differ by [!=]. *)
Fixpoint pairwise_same (list1 list2 : list A) : bool :=
  match list1, list2 with
  | [], [] => true
  | a :: list1', b :: list2' => negb (ne a b) && pairwise_same list1' list2'
  | _, _ => false
  end.
End CheckCoordList.

(** ** The objects the module works with *)

(** The value of an attribute of a [FilenameAssociations]: one file
    name or a list of them. *)
Inductive fnames :=
  | OneFile (filename : string)
  | FileList (filenames : list string).

(** An [ApplierControls]: the overlap, when one was set. *)
Record ApplierControls := { overlap : option Z }.

Definition new_controls : ApplierControls := {| overlap := None |}.

Definition setOverlap (n : Z) (c : ApplierControls) : ApplierControls :=
  {| overlap := Some n |}.

Section Program.
Context {num : Type} `{Number num} `{Defaults}.

(** Python's [!=] on two [(x, y)] tuples whose floats are different
    objects, as are those of an accumulated and of an expected list:
    the first come from the engine at each block, the second were made
    when the module was loaded.  [tuple_ne] below is the comparison of
    any two tuples. *)
Definition coord_ne (a b : num * num) : bool :=
  negb (eqb a.1 b.1 && eqb a.2 b.2).

(** Two lists of tuples have the same length and, index by index,
    components that are equal by Python's [==]. *)
Definition same_coords (list1 list2 : list (num * num)) : Prop :=
  length list1 = length list2
  /\ forall (i : nat) a b, list1 !! i = Some a -> list2 !! i = Some b ->
       eqb a.1 b.1 = true /\ eqb a.2 b.2 = true.

(** No coordinate of the list is a NaN: each compares equal to itself
    by [==]. *)
Definition no_nan (l : list (num * num)) : Prop :=
  Forall (fun c => eqb c.1 c.1 = true /\ eqb c.2 c.2 = true) l.

Definition expected_no_nan : Prop :=
  no_nan CORNERS_1FILE_NOOVERLAP /\ no_nan CENTRES_1FILE_NOOVERLAP
  /\ no_nan CORNERS_1FILE_OVERLAP2 /\ no_nan CENTRES_1FILE_OVERLAP2
  /\ no_nan CORNERS_2FILE_OVERLAP2 /\ no_nan CENTRES_2FILE_OVERLAP2.

(** A Python float object: which object it is, and the float it holds.
    Two references are to the same object when the identities are
    equal. *)
Record pyfloat := PyFloat { oid : positive; value : num }.

(** [x == y] as the comparison of two tuples asks it of two of their
    elements: an object is equal to itself without [==] being called,
    two objects are compared by [==]. *)
Definition item_eq (x y : pyfloat) : bool :=
  Pos.eqb (oid x) (oid y) || eqb (value x) (value y).

(** Python's [a != b] on two [(x, y)] tuples: an element of [a] is not
    equal to the element of [b] at the same place. *)
Definition tuple_ne (a b : pyfloat * pyfloat) : bool :=
  negb (item_eq a.1 b.1 && item_eq a.2 b.2).

(** Two elements are equal: the same object, or two floats equal by
    [==], with no tolerance. *)
Definition same_item (x y : pyfloat) : Prop :=
  oid x = oid y \/ eqb (value x) (value y) = true.

(** Two lists of tuples have the same length and, index by index, equal
    elements. *)
Definition same_tuples (list1 list2 : list (pyfloat * pyfloat)) : Prop :=
  length list1 = length list2
  /\ forall (i : nat) a b, list1 !! i = Some a -> list2 !! i = Some b ->
       same_item a.1 b.1 /\ same_item a.2 b.2.

(** The floats the tuples of a list hold. *)
Definition values (l : list (pyfloat * pyfloat)) : list (num * num) :=
  (fun a => (value a.1, value a.2)) <$> l.

(** No object found at the same place of both lists is a NaN, the one
    float [==] does not find equal to itself. *)
Definition no_shared_nan (list1 list2 : list (pyfloat * pyfloat)) : Prop :=
  forall (i : nat) a b, list1 !! i = Some a -> list2 !! i = Some b ->
    (oid a.1 = oid b.1 -> eqb (value a.1) (value b.1) = true)
    /\ (oid a.2 = oid b.2 -> eqb (value a.2) (value b.2) = true).

(** A two-dimensional numpy array, row by row, and [a[r, c]]. *)
Definition ndarray : Type := list (list num).

Definition item (a : ndarray) (r c : Z) : result num :=
  match getitem a r with
  | Raised e => Raised e
  | Returned row => getitem row c
  end.

(** Modelled from the spec: the [ReaderInfo] the engine gives the
    callback for a block, by the two methods the callback calls: the
    corner coordinate of a pixel of the block, and the coordinate
    arrays of all its pixels. *)
Record ReaderInfo := {
  getPixCoord : Z -> Z -> result (num * num);
  getBlockCoordArrays : result (ndarray * ndarray)
}.

Definition BlockAssociations : Type := gmap string ndarray.

(** [obj.name] on an object whose attributes hold values of type [V]. *)
Definition getattr {V} (obj : gmap string V) (name : string) : result V :=
  match obj !! name with
  | Some v => Returned v
  | None => Raised AttributeError
  end.

(** [otherargs.name.append(v)]: the list the attribute refers to grows
    in place. *)
Definition attr_append (name : string) (v : num * num)
    : prog (gmap string (list (num * num))) pyval :=
  fun otherargs =>
    match getattr otherargs name with
    | Returned l => (Returned PyNone, <[name := l ++ [v]]> otherargs)
    | Raised e => (Raised e, otherargs)
    end.

(** [otherargs.name], looked up for the method call that follows: the
    arguments of the call are evaluated after it. *)
Definition load_attr (name : string)
    : prog (gmap string (list (num * num))) (list (num * num)) :=
  fun otherargs => (getattr otherargs name, otherargs).

(** ** [getCoords] *)

Definition getCoords (info : ReaderInfo) (inputs outputs : BlockAssociations)
    : prog (gmap string (list (num * num))) pyval :=
  ('(x, y) <- eval (getPixCoord info 0 0) ;;
   attr_append "cornersList" (x, y) ;;
   '(x, y) <- eval (getBlockCoordArrays info) ;;
   load_attr "centresList" ;;
   x00 <- eval (item x 0 0) ;;
   y00 <- eval (item y 0 0) ;;
   attr_append "centresList" (x00, y00) ;;
   ret PyNone)%prog.

(** What a block has for the callback to read: the corner of its top
    left pixel, and the first cell of its two coordinate arrays. *)
Definition block_corner (info : ReaderInfo) : result (num * num) :=
  getPixCoord info 0 0.

Definition block_centre (info : ReaderInfo) : result (num * num) :=
  match getBlockCoordArrays info with
  | Raised e => Raised e
  | Returned (x, y) =>
      match item x 0 0 with
      | Raised e => Raised e
      | Returned x00 =>
          match item y 0 0 with
          | Raised e => Raised e
          | Returned y00 => Returned (x00, y00)
          end
      end
  end.

(** ** The calls that leave the module *)

(** A string built with [%]: the template, the test condition and the
    two lists it is filled with. *)
Record pystr := Format {
  template : string;
  condition : string;
  found : list (num * num);
  expected : list (num * num)
}.

Inductive Event :=
  | reportStart (testname : string)
  | genRampImageFile (filename : string) (xLeft yTop : option Z)
  | applier_apply (infiles outfiles : gmap string fnames)
      (controls : ApplierControls)
  | report (testname : string) (message : pystr)
  | os_remove (filename : string).

(** What the rest of the world does: [riostestutils], [applier] and [os]
    are parameters of the development.  [raises] says whether a call
    raises, given the calls made so far and their outcomes; [blocks]
    lists the blocks [applier.apply] hands to the callback, in order,
    before it returns or raises. *)
Record Env := {
  raises : list (Event * option exn) -> Event -> option exn;
  blocks : list (Event * option exn) -> Event
           -> list (ReaderInfo * BlockAssociations)
}.

(** The state [run] works on: the trace of the calls made, each with
    the exception it raised if any, and the four objects [run] creates. *)
Record State := {
  trace : list (Event * option exn);
  infiles : gmap string fnames;
  outfiles : gmap string fnames;
  otherargs : gmap string (list (num * num));
  controls : ApplierControls
}.

Definition initial : State :=
  {| trace := []; infiles := ∅; outfiles := ∅; otherargs := ∅;
     controls := new_controls |}.

Definition log (entry : Event * option exn) (s : State) : State :=
  {| trace := trace s ++ [entry]; infiles := infiles s;
     outfiles := outfiles s; otherargs := otherargs s;
     controls := controls s |}.

Definition set_infiles (f : gmap string fnames) : prog State pyval :=
  fun s => (Returned PyNone,
            {| trace := trace s; infiles := f; outfiles := outfiles s;
               otherargs := otherargs s; controls := controls s |}).

Definition set_outfiles (f : gmap string fnames) : prog State pyval :=
  fun s => (Returned PyNone,
            {| trace := trace s; infiles := infiles s; outfiles := f;
               otherargs := otherargs s; controls := controls s |}).

Definition put_otherargs (o : gmap string (list (num * num))) (s : State)
    : State :=
  {| trace := trace s; infiles := infiles s; outfiles := outfiles s;
     otherargs := o; controls := controls s |}.

Definition set_otherargs (o : gmap string (list (num * num)))
    : prog State pyval :=
  fun s => (Returned PyNone, put_otherargs o s).

Definition set_controls (c : ApplierControls) : prog State pyval :=
  fun s => (Returned PyNone,
            {| trace := trace s; infiles := infiles s;
               outfiles := outfiles s; otherargs := otherargs s;
               controls := c |}).

Definition get {A} (field : State -> A) : prog State A :=
  fun s => (Returned (field s), s).

Variable env : Env.

(** A call that returns [None] or raises, as the world decides. *)
Definition call (ev : Event) : prog State pyval :=
  fun s =>
    let outcome := raises env (trace s) ev in
    (match outcome with
     | Some e => Raised e
     | None => Returned PyNone
     end, log (ev, outcome) s).

(** Modelled from the spec: [applier.apply(userFunc, infiles,
    outfiles, otherargs, controls=controls)], whose code is not among the
    sources at hand.  The engine calls the callback once per block, in
    turn, with the block's metadata and the one [otherargs] object it
    was given; an exception of the callback is not caught. *)
Definition apply_ (userFunc : ReaderInfo -> BlockAssociations -> BlockAssociations
                              -> prog (gmap string (list (num * num))) pyval)
    : prog State pyval :=
  fun s =>
    let ev := applier_apply (infiles s) (outfiles s) (controls s) in
    match for_each (blocks env (trace s) ev)
                   (fun b => userFunc b.1 b.2 ∅) (otherargs s) with
    | (Returned _, o) => call ev (put_otherargs o s)
    | (Raised e, o) => (Raised e, log (ev, Some e) (put_otherargs o s))
    end.

(** ** [checkCoords] *)

Definition checkCoords (testConditionStr : string)
    (otherargs : gmap string (list (num * num)))
    (cornersList centresList : list (num * num)) : prog State pyval :=
  (found <- eval (getattr otherargs "cornersList") ;;
   ok <- eval (checkCoordList coord_ne found cornersList) ;;
   (if negb ok then
      found <- eval (getattr otherargs "cornersList") ;;
      call (report TESTNAME
              (Format "%s: Corner coordinates mis-match. %s, %s"
                 testConditionStr found cornersList))
    else ret PyNone) ;;
   found <- eval (getattr otherargs "centresList") ;;
   ok <- eval (checkCoordList coord_ne found centresList) ;;
   (if negb ok then
      found <- eval (getattr otherargs "centresList") ;;
      call (report TESTNAME
              (Format "%s: Centre coordinates mis-match. %s, %s"
                 testConditionStr found centresList))
    else ret PyNone) ;;
   ret PyNone)%prog.

(** The two report calls of [checkCoords]. *)
Definition corner_mismatch (testConditionStr : string)
    (found expected : list (num * num)) : Event :=
  report TESTNAME
    (Format "%s: Corner coordinates mis-match. %s, %s"
       testConditionStr found expected).

Definition centre_mismatch (testConditionStr : string)
    (found expected : list (num * num)) : Event :=
  report TESTNAME
    (Format "%s: Centre coordinates mis-match. %s, %s"
       testConditionStr found expected).

(** ** [run] *)

Definition run : prog State pyval :=
  (let allOK := true in
   call (reportStart TESTNAME) ;;
   let ramp1 := "ramp1.img" in
   let ramp2 := "ramp2.img" in
   call (genRampImageFile ramp1 None None) ;;
   let xLeft := (DEFAULT_XLEFT + OFFSET_2ND_IMAGE)%Z in
   let yTop := (DEFAULT_YTOP - OFFSET_2ND_IMAGE)%Z in
   call (genRampImageFile ramp2 (Some xLeft) (Some yTop)) ;;
   set_infiles ∅ ;;
   set_outfiles ∅ ;;
   set_otherargs ∅ ;;
   set_controls new_controls ;;
   f <- get infiles ;; set_infiles (<["img" := OneFile ramp1]> f) ;;
   o <- get otherargs ;; set_otherargs (<["cornersList" := []]> o) ;;
   o <- get otherargs ;; set_otherargs (<["centresList" := []]> o) ;;
   apply_ getCoords ;;
   o <- get otherargs ;;
   ok <- checkCoords "1 file, overlap=0" o
           CORNERS_1FILE_NOOVERLAP CENTRES_1FILE_NOOVERLAP ;;
   let allOK := if negb (truthy ok) then false else allOK in
   o <- get otherargs ;; set_otherargs (<["cornersList" := []]> o) ;;
   o <- get otherargs ;; set_otherargs (<["centresList" := []]> o) ;;
   c <- get controls ;; set_controls (setOverlap OLAP c) ;;
   apply_ getCoords ;;
   o <- get otherargs ;;
   ok <- checkCoords "1 file, overlap=2" o
           CORNERS_1FILE_OVERLAP2 CENTRES_1FILE_OVERLAP2 ;;
   let allOK := if negb (truthy ok) then false else allOK in
   f <- get infiles ;; set_infiles (<["img" := FileList [ramp1; ramp2]]> f) ;;
   o <- get otherargs ;; set_otherargs (<["cornersList" := []]> o) ;;
   o <- get otherargs ;; set_otherargs (<["centresList" := []]> o) ;;
   c <- get controls ;; set_controls (setOverlap OLAP c) ;;
   apply_ getCoords ;;
   o <- get otherargs ;;
   ok <- checkCoords "2 files, overlap=2" o
           CORNERS_2FILE_OVERLAP2 CENTRES_2FILE_OVERLAP2 ;;
   let allOK := if negb (truthy ok) then false else allOK in
   for_each [ramp1; ramp2] (fun filename => call (os_remove filename)) ;;
   ret (PyBool allOK))%prog.

(** ** What a run leaves in the trace *)

(** The calls [run] makes between creating the files and removing
    them. *)
Definition middle (ev : Event) : Prop :=
  match ev with
  | applier_apply _ _ _ | report _ _ => True
  | _ => False
  end.

(** Any call but [os.remove]. *)
Definition not_remove (ev : Event) : Prop :=
  match ev with
  | os_remove _ => False
  | _ => True
  end.

(** [m] only appends to the trace, and only calls that satisfy [P];
    when [m] returns, none of these calls has raised. *)
Definition Only (P : Event -> Prop) {A} (m : prog State A) : Prop :=
  forall s, exists new,
    trace (m s).2 = trace s ++ new
    /\ Forall (fun en => P en.1) new
    /\ (forall a, (m s).1 = Returned a -> Forall (fun en => en.2 = None) new).

(** How a run can end, given the calls [new] it has made: an exception
    before the clean-up, with no [os.remove] made ([P] excludes it); an
    exception raised by one of the two [os.remove] calls; or a return,
    after calls that all returned and the removal of both files. *)
Inductive cleanup (P : Event -> Prop)
    : result pyval -> list (Event * option exn) -> Prop :=
  | cleanup_skipped e pre :
      Forall (fun en => P en.1) pre -> cleanup P (Raised e) pre
  | cleanup_first_raised e pre :
      Forall (fun en => P en.1) pre ->
      cleanup P (Raised e) (pre ++ [(os_remove "ramp1.img", Some e)])
  | cleanup_second_raised e pre :
      Forall (fun en => P en.1) pre ->
      cleanup P (Raised e)
        (pre ++ [(os_remove "ramp1.img", None);
                 (os_remove "ramp2.img", Some e)])
  | cleanup_done v pre :
      Forall (fun en => P en.1) pre ->
      Forall (fun en => en.2 = None) pre ->
      cleanup P (Returned v)
        (pre ++ [(os_remove "ramp1.img", None);
                 (os_remove "ramp2.img", None)]).

Definition Cleans (P : Event -> Prop) (m : prog State pyval) : Prop :=
  forall s, exists new,
    trace (m s).2 = trace s ++ new /\ cleanup P (m s).1 new.

(** What [m] returns, when it returns, satisfies [Q]. *)
Definition Returns {S A} (Q : A -> Prop) (m : prog S A) : Prop :=
  forall s a s', m s = (Returned a, s') -> Q a.

(** From a state whose [otherargs] is [o], [m] returns, with a result
    and an [otherargs] that satisfy [J]. *)
Definition Total (o : gmap string (list (num * num))) {A}
    (m : prog State A) (J : A -> gmap string (list (num * num)) -> Prop)
    : Prop :=
  forall s, otherargs s = o ->
    exists a s', m s = (Returned a, s') /\ J a (otherargs s').

(** The accumulator has its two lists. *)
Definition has_lists (o : gmap string (list (num * num))) : Prop :=
  is_Some (o !! "cornersList") /\ is_Some (o !! "centresList").

(** A block from which the callback can read a corner and a centre. *)
Definition readable (info : ReaderInfo) : Prop :=
  (exists c, block_corner info = Returned c)
  /\ (exists k, block_centre info = Returned k).

(** The world of the success path: no call raises, and the engine
    visits readable blocks only. *)
Definition success_path (env : Env) : Prop :=
  (forall tr ev, raises env tr ev = None)
  /\ (forall tr ev, Forall (fun b => readable b.1) (blocks env tr ev)).

(** The messages reported in a trace. *)
Definition reports (tr : list (Event * option exn)) : list pystr :=
  omap (fun en => match en.1 with
                  | report _ message => Some message
                  | _ => None
                  end) tr.

End Program.

Arguments pyfloat : clear implicits.
Arguments ndarray : clear implicits.
Arguments ReaderInfo : clear implicits.
Arguments BlockAssociations : clear implicits.
Arguments pystr : clear implicits.
Arguments Event : clear implicits.
Arguments Env : clear implicits.
Arguments State : clear implicits.

(** ** The trace of a run that returns

    The calls a returning run makes, in closed form, from the blocks the
    engine visits. *)

Section ReturningTrace.
Context {num : Type} `{Number num} `{Defaults} (env : Env num).

(** The corners and the centres the callback reads from the blocks. *)
Definition corners_of (bs : list (ReaderInfo num * BlockAssociations num))
    : list (num * num) :=
  omap (fun b => match block_corner b.1 with
                 | Returned c => Some c
                 | Raised _ => None
                 end) bs.

Definition centres_of (bs : list (ReaderInfo num * BlockAssociations num))
    : list (num * num) :=
  omap (fun b => match block_centre b.1 with
                 | Returned k => Some k
                 | Raised _ => None
                 end) bs.

(** The reports of one [checkCoords], all returning: one for the
    corners and one for the centres, each only at a mismatch. *)
Definition mismatches (testConditionStr : string)
    (corners centres cornersList centresList : list (num * num))
    : list (Event num * option exn) :=
  (if pairwise_same coord_ne corners cornersList then []
   else [(corner_mismatch testConditionStr corners cornersList, None)])
  ++ (if pairwise_same coord_ne centres centresList then []
      else [(centre_mismatch testConditionStr centres centresList, None)]).

(** The calls before the first [apply]. *)
Definition created : list (Event num * option exn) :=
  [(reportStart TESTNAME, None);
   (genRampImageFile "ramp1.img" None None, None);
   (genRampImageFile "ramp2.img"
      (Some (DEFAULT_XLEFT + OFFSET_2ND_IMAGE))
      (Some (DEFAULT_YTOP - OFFSET_2ND_IMAGE)), None)].

(** The calls of the clean-up. *)
Definition removed : list (Event num * option exn) :=
  [(os_remove "ramp1.img", None); (os_remove "ramp2.img", None)].

(** The three [apply] calls. *)
Definition one_file : gmap string fnames :=
  <["img" := OneFile "ramp1.img"]> ∅.

Definition two_files : gmap string fnames :=
  <["img" := FileList ["ramp1.img"; "ramp2.img"]]> one_file.

Definition first_apply : Event num :=
  applier_apply one_file ∅ new_controls.

Definition second_apply : Event num :=
  applier_apply one_file ∅ (setOverlap OLAP new_controls).

Definition third_apply : Event num :=
  applier_apply two_files ∅ (setOverlap OLAP (setOverlap OLAP new_controls)).

(** The blocks each [apply] visits, after the calls made before it, and
    the calls of each of the three scenarios. *)
Definition blocks1 (tr : list (Event num * option exn)) :=
  blocks env (tr ++ created) first_apply.

Definition trace1 (tr : list (Event num * option exn)) :=
  (first_apply, None)
  :: mismatches "1 file, overlap=0"
       (corners_of (blocks1 tr)) (centres_of (blocks1 tr))
       CORNERS_1FILE_NOOVERLAP CENTRES_1FILE_NOOVERLAP.

Definition blocks2 (tr : list (Event num * option exn)) :=
  blocks env (tr ++ created ++ trace1 tr) second_apply.

Definition trace2 (tr : list (Event num * option exn)) :=
  (second_apply, None)
  :: mismatches "1 file, overlap=2"
       (corners_of (blocks2 tr)) (centres_of (blocks2 tr))
       CORNERS_1FILE_OVERLAP2 CENTRES_1FILE_OVERLAP2.

Definition blocks3 (tr : list (Event num * option exn)) :=
  blocks env (tr ++ created ++ trace1 tr ++ trace2 tr) third_apply.

Definition trace3 (tr : list (Event num * option exn)) :=
  (third_apply, None)
  :: mismatches "2 files, overlap=2"
       (corners_of (blocks3 tr)) (centres_of (blocks3 tr))
       CORNERS_2FILE_OVERLAP2 CENTRES_2FILE_OVERLAP2.

Definition returning_trace (tr : list (Event num * option exn)) :=
  created ++ trace1 tr ++ trace2 tr ++ trace3 tr ++ removed.

(** The [apply] calls of a trace, with their arguments. *)
Definition applies (tr : list (Event num * option exn))
    : list (gmap string fnames * gmap string fnames * ApplierControls) :=
  omap (fun en => match en.1 with
                  | applier_apply i o c => Some (i, o, c)
                  | _ => None
                  end) tr.

(** [m] only appends to the trace, and an exception of one of its calls
    is the exception [m] raises, that call being its last: either no
    call made has raised, or the last one has, with what [m] raises. *)
Definition Uncaught {A} (m : prog (State num) A) : Prop :=
  forall s, exists new,
    trace (m s).2 = trace s ++ new
    /\ (Forall (fun en => en.2 = None) new
        \/ exists pre ev e,
             new = pre ++ [(ev, Some e)]
             /\ Forall (fun en => en.2 = None) pre
             /\ (m s).1 = Raised e).

(** The state [s] with the trace [tr]. *)
Definition with_trace (tr : list (Event num * option exn)) (s : State num)
    : State num :=
  {| trace := tr; infiles := infiles s; outfiles := outfiles s;
     otherargs := otherargs s; controls := controls s |}.

End ReturningTrace.

(** ** An engine that is right

    The engine the expected lists describe: whatever the constants, it
    visits blocks at exactly the expected corners and centres, and no
    call raises. *)

Section ExpectedEngine.
Context {num : Type} `{Number num} `{Defaults}.

Definition expected_block (corner centre : num * num)
    : ReaderInfo num * BlockAssociations num :=
  ({| getPixCoord := fun _ _ => Returned corner;
      getBlockCoordArrays := Returned ([[centre.1]], [[centre.2]]) |}, ∅).

Definition expected_env : Env num :=
  {| raises := fun _ _ => None;
     blocks := fun _ ev =>
       match ev with
       | applier_apply infiles _ controls =>
           match infiles !! "img", overlap controls with
           | Some (OneFile _), None =>
               zip_with expected_block
                 CORNERS_1FILE_NOOVERLAP CENTRES_1FILE_NOOVERLAP
           | Some (OneFile _), Some _ =>
               zip_with expected_block
                 CORNERS_1FILE_OVERLAP2 CENTRES_1FILE_OVERLAP2
           | Some (FileList _), _ =>
               zip_with expected_block
                 CORNERS_2FILE_OVERLAP2 CENTRES_2FILE_OVERLAP2
           | None, _ => []
           end
       | _ => []
       end |}.

End ExpectedEngine.

(** ** Sample values

    Concrete values on which the definitions above are evaluated: a
    500000, 7000000 origin, 10 metre pixels and windows of 200 pixels. *)

Definition sample_defaults : Defaults :=
  {| DEFAULT_XLEFT := 500000; DEFAULT_YTOP := 7000000;
     DEFAULT_PIXSIZE := 10; DEFAULTWINDOWXSIZE := 200 |}.

(** Constants beyond the range of integers that binary64 keeps apart:
    an origin of 2^53 + 2 with pixels of 2. *)
Definition large_defaults : Defaults :=
  {| DEFAULT_XLEFT := 9007199254740994; DEFAULT_YTOP := 7000000;
     DEFAULT_PIXSIZE := 2; DEFAULTWINDOWXSIZE := 200 |}.

(** A NaN object, a second NaN object, and the float [1.0]. *)
Definition nan1 : pyfloat float := PyFloat 1 PrimFloat.nan.
Definition nan2 : pyfloat float := PyFloat 2 PrimFloat.nan.
Definition one3 : pyfloat float := PyFloat 3 1%float.

(** A block of the sample engine: its top left pixel has the given
    corner, and its coordinate arrays hold the given centre in their
    first cell. *)
Definition sample_block {num : Type} `{Number num} (pix : Z)
    (corner centre : num * num)
    : ReaderInfo num * BlockAssociations num :=
  ({| getPixCoord := fun col row =>
        Returned (corner.1 + $(col * pix), corner.2 - $(row * pix))%num;
      getBlockCoordArrays := Returned ([[centre.1]], [[centre.2]]) |}, ∅).

(** An engine that hands the callback blocks at exactly the expected
    coordinates, in a world where no call raises. *)
Definition sample_env : Env float :=
  let _ := sample_defaults in
  {| raises := fun _ _ => None;
     blocks := fun _ ev =>
       match ev with
       | applier_apply infiles _ controls =>
           match infiles !! "img", overlap controls with
           | Some (OneFile _), None =>
               zip_with (sample_block 10)
                 CORNERS_1FILE_NOOVERLAP CENTRES_1FILE_NOOVERLAP
           | Some (OneFile _), Some _ =>
               zip_with (sample_block 10)
                 CORNERS_1FILE_OVERLAP2 CENTRES_1FILE_OVERLAP2
           | Some (FileList _), _ =>
               zip_with (sample_block 10)
                 CORNERS_2FILE_OVERLAP2 CENTRES_2FILE_OVERLAP2
           | None, _ => []
           end
       | _ => []
       end |}.

(** An engine that visits a single block, one pixel off the expected
    origin. *)
Definition shifted_env : Env float :=
  {| raises := fun _ _ => None;
     blocks := fun _ _ =>
       [sample_block 10 (500010, 7000000)%float (500015, 6999995)%float] |}.

(** The nine blocks the sample engine visits on the first [apply], and
    an accumulator with its two lists still empty. *)
Definition sample_blocks : list (ReaderInfo float * BlockAssociations float) :=
  blocks sample_env []
    (applier_apply (<["img" := OneFile "ramp1.img"]> ∅) ∅ new_controls).

Definition empty_otherargs : gmap string (list (float * float)) :=
  <["centresList" := []]> (<["cornersList" := []]> ∅).

(** A block whose coordinate arrays cannot be had. *)
Definition broken_block : ReaderInfo float :=
  {| getPixCoord := fun _ _ => Returned (500000, 7000000)%float;
     getBlockCoordArrays := Raised (Failure "getBlockCoordArrays") |}.

(** A block whose coordinate arrays are empty, and an accumulator that
    has no [centresList]. *)
Definition empty_block : ReaderInfo float :=
  {| getPixCoord := fun _ _ => Returned (500000, 7000000)%float;
     getBlockCoordArrays := Returned ([], []) |}.

Definition corners_only : gmap string (list (float * float)) :=
  <["cornersList" := []]> ∅.

(** The world of [shifted_env], but where every [report] raises. *)
Definition raising_report_env : Env float :=
  {| raises := fun _ ev =>
       match ev with
       | report _ _ => Some (Failure "report")
       | _ => None
       end;
     blocks := blocks shifted_env |}.

(** An accumulator that saw one block, at the sample origin. *)
Definition sample_otherargs : gmap string (list (float * float)) :=
  <["centresList" := [(500005, 6999995)%float]]>
    (<["cornersList" := [(500000, 7000000)%float]]> ∅).

(** * Properties *)

(** ** Exact rationals are an [ExactNumber] *)

Lemma Qc_ExactNumber : ExactNumber Qc.
Proof.
  split.
  - intros a b c. simpl. ring.
  - intros a b. simpl. rewrite Qeq_bool_iff. split.
    + apply Qc_is_canon.
    + intros ->. reflexivity.
Qed.

(** ** Binary64 without rounding

    Sums and differences of integers and half integers of magnitude
    below 2^52, and the half of such an integer, are computed by
    binary64 as they are in the integers. *)

Lemma iter_pos_iter {A} (f : A -> A) p x :
  SpecFloat.iter_pos f p x = Pos.iter f x p.
Proof.
  revert x. induction p as [p IH|p IH|]; intros x; simpl.
  - rewrite !IH, <- !Pos.iter_swap. reflexivity.
  - rewrite !IH. reflexivity.
  - reflexivity.
Qed.

Lemma Zpos_iter_xO m k : Zpos (Pos.iter xO m k) = Zpos m * 2 ^ Zpos k.
Proof.
  induction k as [|k IH] using Pos.peano_ind.
  - simpl. lia.
  - rewrite Pos.iter_succ, Pos2Z.inj_xO, IH, Pos2Z.inj_succ, Z.pow_succ_r by lia.
    lia.
Qed.

Lemma digits2_iter_xO m k :
  Zpos (digits2_pos (Pos.iter xO m k)) = Zpos (digits2_pos m) + Zpos k.
Proof.
  induction k as [|k IH] using Pos.peano_ind.
  - simpl. lia.
  - rewrite Pos.iter_succ. simpl digits2_pos. rewrite Pos2Z.inj_succ, IH. lia.
Qed.

(** Shifting out bits that are all zero loses nothing. *)
Lemma shr_exact m k :
  SpecFloat.iter_pos shr_1 k (Build_shr_record (Zpos (Pos.iter xO m k)) false false)
  = Build_shr_record (Zpos m) false false.
Proof.
  rewrite iter_pos_iter.
  induction k as [|k IH] using Pos.peano_ind.
  - reflexivity.
  - rewrite Pos.iter_succ, <- Pos.iter_swap. rewrite Pos.iter_succ. simpl shr_1.
    exact IH.
Qed.

Lemma iter_xO_of_mul m m' k : 0 < k -> Zpos m' = Zpos m * 2 ^ k ->
  m' = Pos.iter xO m (Z.to_pos k).
Proof.
  intros Hk Hm. apply Pos2Z.inj. rewrite Zpos_iter_xO, Hm.
  rewrite Z2Pos.id by lia. reflexivity.
Qed.

Lemma fexp_eq x : -1074 <= x - 53 -> fexp prec emax x = x - 53.
Proof. intros Hx. unfold fexp, emin, prec, emax. lia. Qed.

Lemma shr_fexp_canonical m e :
  Zpos (digits2_pos m) = 53 -> -1074 <= e ->
  shr_fexp prec emax (Zpos m) e loc_Exact
  = (Build_shr_record (Zpos m) false false, e).
Proof.
  intros Hd He. unfold shr_fexp. cbn [Zdigits2]. rewrite Hd, fexp_eq by lia.
  replace (53 + e - 53 - e) with 0 by lia. reflexivity.
Qed.

Lemma shr_fexp_shifted m k e :
  Zpos (digits2_pos m) = 53 -> -1074 <= e + Zpos k ->
  shr_fexp prec emax (Zpos (Pos.iter xO m k)) e loc_Exact
  = (Build_shr_record (Zpos m) false false, e + Zpos k).
Proof.
  intros Hd He. unfold shr_fexp. cbn [Zdigits2].
  rewrite digits2_iter_xO, Hd, fexp_eq by lia.
  replace (53 + Zpos k + e - 53 - e) with (Zpos k) by lia.
  unfold shr. cbn [shr_record_of_loc]. rewrite shr_exact. reflexivity.
Qed.

Lemma binary_round_aux_finish s m e :
  Zpos (digits2_pos m) = 53 -> -1074 <= e <= 971 ->
  (let '(mrs, e') :=
     shr_fexp prec emax
       (round_nearest_even (shr_m (Build_shr_record (Zpos m) false false))
          (loc_of_shr_record (Build_shr_record (Zpos m) false false)))
       e loc_Exact in
   match shr_m mrs with
   | Z0 => S754_zero s
   | Zpos m0 => if Z.leb e' (Z.sub emax prec) then S754_finite s m0 e'
                else S754_infinity s
   | Zneg _ => S754_nan
   end) = S754_finite s m e.
Proof.
  intros Hd He. cbn [shr_m loc_of_shr_record round_nearest_even].
  rewrite shr_fexp_canonical by (assumption || lia). cbn [shr_m].
  destruct (Z.leb_spec e (emax - prec)); [reflexivity|].
  unfold emax, prec in *. lia.
Qed.

(** A mantissa of 53 bits with an exponent in range is what rounding
    leaves as it is. *)
Lemma binary_round_aux_canonical s m e :
  Zpos (digits2_pos m) = 53 -> -1074 <= e <= 971 ->
  binary_round_aux prec emax s (Zpos m) e loc_Exact = S754_finite s m e.
Proof.
  intros Hd He. unfold binary_round_aux.
  rewrite shr_fexp_canonical by (assumption || lia).
  apply binary_round_aux_finish; assumption.
Qed.

Lemma binary_round_aux_shifted s m k e :
  Zpos (digits2_pos m) = 53 -> -1074 <= e + Zpos k <= 971 ->
  binary_round_aux prec emax s (Zpos (Pos.iter xO m k)) e loc_Exact
  = S754_finite s m (e + Zpos k).
Proof.
  intros Hd He. unfold binary_round_aux.
  rewrite shr_fexp_shifted by (assumption || lia).
  apply binary_round_aux_finish; assumption.
Qed.

Lemma shl_align_same m e : shl_align m e e = (m, e).
Proof. unfold shl_align. rewrite Z.sub_diag. reflexivity. Qed.

Lemma shl_align_left m e e' : e' < e ->
  shl_align m e e' = (Pos.iter xO m (Z.to_pos (e - e')), e').
Proof.
  intros Hlt. unfold shl_align. destruct (e' - e) as [|d|d] eqn:E; try lia.
  replace (Z.to_pos (e - e')) with d by lia. reflexivity.
Qed.

Lemma shl_align_right m e e' : e <= e' -> shl_align m e e' = (m, e).
Proof.
  intros Hle. unfold shl_align. destruct (e' - e) as [|d|d] eqn:E; try lia;
    reflexivity.
Qed.

(** Rounding [m * 2^e] gives the float of mantissa [m'] and exponent
    [e'] when that float has the same value and a mantissa of 53
    bits. *)
Lemma binary_round_value s m e m' e' :
  Zpos (digits2_pos m') = 53 -> -1074 <= e' <= 971 ->
  (e' <= e /\ Zpos m' = Zpos m * 2 ^ (e - e'))
  \/ (e <= e' /\ Zpos m = Zpos m' * 2 ^ (e' - e)) ->
  binary_round prec emax s m e = S754_finite s m' e'.
Proof.
  intros Hd He Hv. unfold binary_round.
  destruct (Z.eq_dec e e') as [->|Hne].
  - assert (m' = m) as ->.
    { destruct Hv as [[_ Hv]|[_ Hv]]; rewrite Z.sub_diag in Hv; simpl in Hv;
        apply Pos2Z.inj; lia. }
    rewrite Hd, fexp_eq by lia. replace (53 + e' - 53) with e' by lia.
    rewrite shl_align_same.
    apply binary_round_aux_canonical; assumption.
  - destruct Hv as [[Hle Hv]|[Hle Hv]].
    + apply iter_xO_of_mul in Hv; [|lia]. subst m'.
      rewrite digits2_iter_xO, Z2Pos.id in Hd by lia.
      rewrite fexp_eq by lia.
      replace (Zpos (digits2_pos m) + e - 53) with e' by lia.
      rewrite shl_align_left by lia.
      apply binary_round_aux_canonical; [|assumption].
      rewrite digits2_iter_xO, Z2Pos.id by lia. lia.
    + apply iter_xO_of_mul in Hv; [|lia]. subst m.
      rewrite digits2_iter_xO, Hd, Z2Pos.id, fexp_eq by lia.
      rewrite shl_align_right by lia.
      rewrite binary_round_aux_shifted by (rewrite ?Z2Pos.id by lia; assumption || lia).
      f_equal. rewrite Z2Pos.id by lia. lia.
Qed.

Lemma digits2_pos_size p : digits2_pos p = Pos.size p.
Proof. induction p; simpl; congruence. Qed.

(** Every nonzero integer below 2^53 in magnitude has a 53-bit mantissa. *)
Lemma mantissa_exists (p : positive) : Zpos p < 2 ^ 53 ->
  exists m' e', Zpos (digits2_pos m') = 53 /\ -54 <= e' <= -1
    /\ Zpos m' = Zpos p * 2 ^ (-1 - e').
Proof.
  intros Hp.
  assert (Hd : Zpos (digits2_pos p) <= 53).
  { rewrite digits2_pos_size.
    assert (Hle : 2 ^ Zpos (Pos.size p) <= 2 * Zpos p).
    { pose proof (Pos.size_le p) as Hle. apply Pos2Z.pos_le_pos in Hle.
      rewrite Pos2Z.inj_pow in Hle. exact Hle. }
    destruct (Z.le_gt_cases (Zpos (Pos.size p)) 53) as [|Hgt]; [assumption|].
    assert (H54 : 2 ^ 54 <= 2 ^ Zpos (Pos.size p))
      by (apply Z.pow_le_mono_r; lia).
    change (2 ^ 54) with (2 * 2 ^ 53) in H54. lia. }
  destruct (Z.eq_dec (Zpos (digits2_pos p)) 53) as [He|Hne].
  - exists p, (-1). repeat split; lia.
  - exists (Pos.iter xO p (Z.to_pos (53 - Zpos (digits2_pos p)))),
      (Zpos (digits2_pos p) - 54).
    rewrite digits2_iter_xO, Zpos_iter_xO, !Z2Pos.id by lia.
    split; [lia|]. split; [lia|]. f_equal. f_equal. lia.
Qed.

Lemma halves_finite n m' e' :
  n <> 0 -> Zpos (digits2_pos m') = 53 -> -1074 <= e' <= -1 ->
  Zpos m' = Z.abs n * 2 ^ (-1 - e') ->
  halves n = S754_finite (n <? 0) m' e'.
Proof.
  intros Hn Hd He Hm. unfold halves, binary_normalize.
  destruct n as [|p|p]; [congruence| |];
    (apply binary_round_value; [assumption|lia|left; split; [lia|exact Hm]]).
Qed.

(** The float that holds [n / 2]: its sign, mantissa and exponent. *)
Lemma halves_repr n : n <> 0 -> Z.abs n < 2 ^ 53 ->
  exists m' e', halves n = S754_finite (n <? 0) m' e'
    /\ Zpos (digits2_pos m') = 53 /\ -54 <= e' <= -1
    /\ Zpos m' = Z.abs n * 2 ^ (-1 - e').
Proof.
  intros Hn Hb.
  destruct (mantissa_exists (Z.to_pos (Z.abs n))) as (m' & e' & Hd & He & Hm).
  { rewrite Z2Pos.id by lia. exact Hb. }
  rewrite Z2Pos.id in Hm by lia.
  exists m', e'. repeat split; try assumption; try lia.
  apply halves_finite; try assumption; lia.
Qed.

Lemma halves_valid n : Z.abs n < 2 ^ 53 -> valid_binary (halves n) = true.
Proof.
  intros Hb. destruct (Z.eq_dec n 0) as [->|Hn]; [reflexivity|].
  destruct (halves_repr n Hn Hb) as (m' & e' & -> & Hd & He & _).
  unfold valid_binary, bounded, canonical_mantissa, fexp, emin, prec, emax.
  rewrite Hd. apply andb_true_intro; split.
  - apply Z.eqb_eq. lia.
  - apply Z.leb_le. lia.
Qed.

(** The value [c / 2] written with a smaller unit rounds to [halves c]. *)
Lemma normalize_halves c e : -1074 <= e <= -1 -> Z.abs c < 2 ^ 53 ->
  binary_normalize prec emax (c * 2 ^ (-1 - e)) e false = halves c.
Proof.
  intros He Hb. destruct (Z.eq_dec c 0) as [->|Hc]; [reflexivity|].
  destruct (halves_repr c Hc Hb) as (m' & e' & -> & Hd & He' & Hm).
  assert (HK : 0 < 2 ^ (-1 - e)) by (apply Z.pow_pos_nonneg; lia).
  assert (Habs : Z.abs (c * 2 ^ (-1 - e)) = Z.abs c * 2 ^ (-1 - e)).
  { rewrite Z.abs_mul, (Z.abs_eq (2 ^ _)) by lia. reflexivity. }
  assert (Hs : (c * 2 ^ (-1 - e) <? 0) = (c <? 0)).
  { destruct (Z.ltb_spec c 0), (Z.ltb_spec (c * 2 ^ (-1 - e)) 0);
      try reflexivity; nia. }
  assert (Hrel : (e' <= e /\ Zpos m' = Z.abs (c * 2 ^ (-1 - e)) * 2 ^ (e - e'))
    \/ (e <= e' /\ Z.abs (c * 2 ^ (-1 - e)) = Zpos m' * 2 ^ (e' - e))).
  { rewrite Habs, Hm. destruct (Z.le_gt_cases e' e).
    - left. split; [assumption|]. rewrite <- Z.mul_assoc, <- Z.pow_add_r by lia.
      f_equal. f_equal. lia.
    - right. split; [lia|]. rewrite <- Z.mul_assoc, <- Z.pow_add_r by lia.
      f_equal. f_equal. lia. }
  unfold binary_normalize.
  destruct (c * 2 ^ (-1 - e)) as [|p|p] eqn:E.
  - lia.
  - rewrite <- Hs. apply binary_round_value; [assumption|lia|exact Hrel].
  - rewrite <- Hs. apply binary_round_value; [assumption|lia|exact Hrel].
Qed.

Lemma shl_align_value m e ez : ez <= e ->
  Zpos (fst (shl_align m e ez)) = Zpos m * 2 ^ (e - ez).
Proof.
  intros Hle. unfold shl_align. destruct (ez - e) as [|d|d] eqn:E.
  - replace (e - ez) with 0 by lia. cbn [fst]. lia.
  - lia.
  - cbn [fst]. rewrite Zpos_iter_xO. replace (e - ez) with (Zpos d) by lia.
    reflexivity.
Qed.

Lemma cond_Zopp_sign c x : 0 <= x -> cond_Zopp (c <? 0) (Z.abs c * x) = c * x.
Proof. intros Hx. unfold cond_Zopp. destruct (Z.ltb_spec c 0); lia. Qed.

(** The aligned mantissas of two values in half units. *)
Lemma aligned n m e ez : ez <= e -> e <= -1 ->
  Zpos m = Z.abs n * 2 ^ (-1 - e) ->
  cond_Zopp (n <? 0) (Zpos (fst (shl_align m e ez))) = n * 2 ^ (-1 - ez).
Proof.
  intros H1 H2 Hm. rewrite shl_align_value, Hm by assumption.
  rewrite <- Z.mul_assoc, <- Z.pow_add_r by lia.
  replace (-1 - e + (e - ez)) with (-1 - ez) by lia.
  apply cond_Zopp_sign. apply Z.pow_nonneg. lia.
Qed.

(** The sum of two floats that hold half integers holds their sum,
    when that is below 2^52 in magnitude; likewise the difference. *)
Lemma SFadd_halves a b :
  Z.abs a < 2 ^ 53 -> Z.abs b < 2 ^ 53 -> Z.abs (a + b) < 2 ^ 53 ->
  SFadd prec emax (halves a) (halves b) = halves (a + b).
Proof.
  intros Ha Hb Hab.
  destruct (Z.eq_dec a 0) as [->|Na].
  { destruct (Z.eq_dec b 0) as [->|Nb]; [reflexivity|].
    destruct (halves_repr b Nb Hb) as (mb & eb & Eb & _).
    rewrite Z.add_0_l, Eb. reflexivity. }
  destruct (halves_repr a Na Ha) as (ma & ea & Ea & Hda & Hea & Hma).
  destruct (Z.eq_dec b 0) as [->|Nb].
  { rewrite Z.add_0_r, Ea. reflexivity. }
  destruct (halves_repr b Nb Hb) as (mb & eb & Eb & Hdb & Heb & Hmb).
  rewrite Ea, Eb. unfold SFadd.
  rewrite (aligned a), (aligned b) by (assumption || lia).
  rewrite <- Z.mul_add_distr_r. apply normalize_halves; [lia|assumption].
Qed.

Lemma halves_opp b : b <> 0 -> Z.abs b < 2 ^ 53 ->
  halves (- b) = SFopp (halves b).
Proof.
  intros Nb Hb.
  destruct (halves_repr b Nb Hb) as (mb & eb & Eb & Hdb & Heb & Hmb).
  rewrite Eb. simpl SFopp.
  rewrite (halves_finite (- b) mb eb);
    [|lia|assumption|lia|rewrite Z.abs_opp; exact Hmb].
  f_equal. destruct (Z.ltb_spec b 0), (Z.ltb_spec (- b) 0); try reflexivity; lia.
Qed.

Lemma SFsub_halves a b :
  Z.abs a < 2 ^ 53 -> Z.abs b < 2 ^ 53 -> Z.abs (a - b) < 2 ^ 53 ->
  SFsub prec emax (halves a) (halves b) = halves (a - b).
Proof.
  intros Ha Hb Hab.
  destruct (Z.eq_dec b 0) as [->|Nb].
  { rewrite Z.sub_0_r. destruct (Z.eq_dec a 0) as [->|Na]; [reflexivity|].
    destruct (halves_repr a Na Ha) as (ma & ea & Ea & _). rewrite Ea.
    reflexivity. }
  destruct (halves_repr b Nb Hb) as (mb & eb & Eb & Hdb & Heb & Hmb).
  destruct (Z.eq_dec a 0) as [->|Na].
  { change (0 - b) with (- b). rewrite halves_opp, Eb by assumption. reflexivity. }
  destruct (halves_repr a Na Ha) as (ma & ea & Ea & Hda & Hea & Hma).
  rewrite Ea, Eb. unfold SFsub.
  rewrite (aligned a), (aligned b) by (assumption || lia).
  rewrite <- Z.mul_sub_distr_r. apply normalize_halves; [lia|assumption].
Qed.

(** An int converted to a float. *)
Lemma normalize_int z : Z.abs z < 2 ^ 52 ->
  binary_normalize prec emax z 0 false = halves (2 * z).
Proof.
  intros Hz. destruct (Z.eq_dec z 0) as [->|Nz]; [reflexivity|].
  destruct (halves_repr (2 * z)) as (m' & e' & -> & Hd & He & Hm);
    [lia|change (2 ^ 53) with (2 * 2 ^ 52); lia|].
  assert (Hm' : Zpos m' = Z.abs z * 2 ^ (0 - e')).
  { rewrite Hm, Z.abs_mul. change (Z.abs 2) with 2.
    replace (0 - e') with (Z.succ (-1 - e')) by lia.
    rewrite Z.pow_succ_r by lia. lia. }
  replace (2 * z <? 0) with (z <? 0)
    by (destruct (Z.ltb_spec z 0), (Z.ltb_spec (2 * z) 0); try reflexivity; lia).
  unfold binary_normalize. destruct z as [|p|p]; [congruence| |];
    (apply binary_round_value; [assumption|lia|left; split; [lia|exact Hm']]).
Qed.

(** Half of an int. *)
Lemma SFmul_half z : Z.abs z < 2 ^ 52 ->
  SFmul prec emax (Prim2SF 0.5) (halves (2 * z)) = halves z.
Proof.
  intros Hz. change (Prim2SF 0.5) with (S754_finite false 4503599627370496 (-53)).
  destruct (Z.eq_dec z 0) as [->|Nz]; [reflexivity|].
  destruct (halves_repr (2 * z)) as (m' & e' & -> & Hd & He & Hm);
    [lia|change (2 ^ 53) with (2 * 2 ^ 52); lia|].
  unfold SFmul.
  assert (E : (4503599627370496 * m')%positive = Pos.iter xO m' 52).
  { apply Pos2Z.inj. rewrite Zpos_iter_xO, Pos2Z.inj_mul.
    change (2 ^ 52) with 4503599627370496. lia. }
  rewrite E, binary_round_aux_shifted by (assumption || lia).
  symmetry. cbn [xorb].
  replace (2 * z <? 0) with (z <? 0)
    by (destruct (Z.ltb_spec z 0), (Z.ltb_spec (2 * z) 0); try reflexivity; lia).
  replace (-53 + e' + 52) with (e' - 1) by lia.
  apply halves_finite; try assumption; try lia.
  rewrite Hm, Z.abs_mul. change (Z.abs 2) with 2.
  replace (-1 - (e' - 1)) with (Z.succ (-1 - e')) by lia.
  rewrite Z.pow_succ_r by lia. lia.
Qed.

(** The same on the floats of the machine. *)

Lemma Prim2SF_fl n : Z.abs n < 2 ^ 53 -> Prim2SF (fl n) = halves n.
Proof. intros Hn. apply Prim2SF_SF2Prim, halves_valid, Hn. Qed.

Lemma fl_add a b :
  Z.abs a < 2 ^ 53 -> Z.abs b < 2 ^ 53 -> Z.abs (a + b) < 2 ^ 53 ->
  (fl a + fl b)%float = fl (a + b).
Proof.
  intros Ha Hb Hab. apply Prim2SF_inj.
  rewrite FloatAxioms.add_spec, !Prim2SF_fl by assumption. apply SFadd_halves; assumption.
Qed.

Lemma fl_sub a b :
  Z.abs a < 2 ^ 53 -> Z.abs b < 2 ^ 53 -> Z.abs (a - b) < 2 ^ 53 ->
  (fl a - fl b)%float = fl (a - b).
Proof.
  intros Ha Hb Hab. apply Prim2SF_inj.
  rewrite FloatAxioms.sub_spec, !Prim2SF_fl by assumption. apply SFsub_halves; assumption.
Qed.

Lemma fl_half z : Z.abs z < 2 ^ 52 -> (0.5 * fl (2 * z))%float = fl z.
Proof.
  intros Hz. assert (Z.abs (2 * z) < 2 ^ 53) by (change (2 ^ 53) with (2 * 2 ^ 52); lia).
  assert (Z.abs z < 2 ^ 53) by (change (2 ^ 53) with (2 * 2 ^ 52); lia).
  apply Prim2SF_inj.
  rewrite FloatAxioms.mul_spec, !Prim2SF_fl by assumption. apply SFmul_half; assumption.
Qed.

Lemma of_int_fl z : Z.abs z < 2 ^ 52 ->
  SF2Prim (binary_normalize prec emax z 0 false) = fl (2 * z).
Proof. intros Hz. unfold fl. rewrite normalize_int by assumption. reflexivity. Qed.

(** [==] on two floats that hold half integers is equality of the
    half integers. *)
Lemma SFeqb_halves a b : Z.abs a < 2 ^ 53 -> Z.abs b < 2 ^ 53 ->
  SFeqb (halves a) (halves b) = (a =? b).
Proof.
  intros Ha Hb.
  destruct (Z.eq_dec a 0) as [->|Na].
  { destruct (Z.eq_dec b 0) as [->|Nb]; [reflexivity|].
    destruct (halves_repr b Nb Hb) as (mb & eb & -> & _).
    change (halves 0) with (S754_zero false). unfold SFeqb, SFcompare.
    destruct (Z.eqb_spec 0 b); [congruence|]. destruct (b <? 0); reflexivity. }
  destruct (halves_repr a Na Ha) as (ma & ea & Ea & Hda & Hea & Hma).
  destruct (Z.eq_dec b 0) as [->|Nb].
  { rewrite Ea. change (halves 0) with (S754_zero false). unfold SFeqb, SFcompare.
    destruct (Z.eqb_spec a 0); [congruence|]. destruct (a <? 0); reflexivity. }
  destruct (halves_repr b Nb Hb) as (mb & eb & Eb & Hdb & Heb & Hmb).
  rewrite Ea, Eb. unfold SFeqb, SFcompare.
  destruct (Z.eqb_spec a b) as [->|Hne].
  - assert (eb = ea) as ->.
    { rewrite Ea in Eb. congruence. }
    assert (mb = ma) as -> by (rewrite Ea in Eb; congruence).
    rewrite Z.compare_refl, Pos.compare_cont_refl.
    destruct (b <? 0); reflexivity.
  - assert (Hdiff : (a <? 0) = (b <? 0) -> ea = eb -> ma = mb -> False).
    { intros Hs -> ->. apply Hne.
      assert (HK : 0 < 2 ^ (-1 - eb)) by (apply Z.pow_pos_nonneg; lia).
      assert (Z.abs a = Z.abs b) by nia.
      destruct (Z.ltb_spec a 0), (Z.ltb_spec b 0); try discriminate; lia. }
    destruct (a <? 0), (b <? 0); try reflexivity;
      destruct (Z.compare_spec ea eb) as [He| |]; try reflexivity;
      destruct (Pos.compare_cont Eq ma mb) eqn:Hc; try reflexivity;
      exfalso; apply Hdiff; try reflexivity; try assumption;
      apply Pos.compare_eq; exact Hc.
Qed.

Lemma fl_eqb a b : Z.abs a < 2 ^ 53 -> Z.abs b < 2 ^ 53 ->
  PrimFloat.eqb (fl a) (fl b) = (a =? b).
Proof.
  intros Ha Hb. rewrite FloatAxioms.eqb_spec, !Prim2SF_fl by assumption.
  apply SFeqb_halves; assumption.
Qed.

Lemma float_of_int_fl z : Z.abs z < 2 ^ 52 -> float_of_int z = fl (2 * z).
Proof. apply of_int_fl. Qed.

(** Beyond 2^53 the conversion of an int rounds, ties to even, also
    above the integers of 63 bits. *)
Lemma float_of_int_rounds :
  float_of_int (2 ^ 53 + 1) = 9007199254740992%float
  /\ float_of_int (2 ^ 53 + 3) = 9007199254740996%float
  /\ float_of_int (- (2 ^ 53 + 3)) = (-9007199254740996)%float
  /\ float_of_int (2 ^ 64 + 1) = 18446744073709551616%float.
Proof. vm_compute. repeat split. Qed.

(** ** [checkCoordList] *)

Lemma getitem_lookup {A} (l : list A) (i : nat) (a : A) :
  l !! i = Some a -> getitem l (Z.of_nat i) = Returned a.
Proof.
  intros Hi. unfold getitem.
  assert ((Z.of_nat i <? 0) = false) as Hpos by (apply Z.ltb_ge; lia).
  rewrite !Hpos, Nat2Z.id, Hi. reflexivity.
Qed.

Section CheckCoordListFacts.
Context {A : Type} (ne : A -> A -> bool).

Lemma pairwise_same_Forall2 (l1 l2 : list A) :
  pairwise_same ne l1 l2 = true <-> Forall2 (fun a b => ne a b = false) l1 l2.
Proof.
  revert l2. induction l1 as [|a l1 IH]; intros [|b l2]; simpl.
  - split; [constructor | reflexivity].
  - split; [discriminate | inversion 1].
  - split; [discriminate | inversion 1].
  - rewrite andb_true_iff, negb_true_iff, IH. split.
    + intros [Hab Hl]. constructor; assumption.
    + inversion 1; subst. split; assumption.
Qed.

(** The loop visits the indices [k, k+1, ...] to the end of the two
    lists without raising, and clears [ok] at a difference. *)
Lemma checkCoordList_loop_spec (n k : nat) (l1 l2 : list A) (ok : bool) :
  length l1 = (k + n)%nat -> length l2 = (k + n)%nat ->
  checkCoordList_loop ne l1 l2 (Z.of_nat <$> seq k n) ok
    = Returned (ok && pairwise_same ne (drop k l1) (drop k l2)).
Proof.
  revert k ok. induction n as [|n IH]; intros k ok H1 H2.
  - rewrite !drop_ge by lia. simpl. rewrite andb_true_r. reflexivity.
  - destruct (lookup_lt_is_Some_2 l1 k) as [a Ha]; [lia|].
    destruct (lookup_lt_is_Some_2 l2 k) as [b Hb]; [lia|].
    simpl. rewrite (getitem_lookup _ _ _ Ha), (getitem_lookup _ _ _ Hb).
    rewrite IH by lia.
    rewrite (drop_S _ _ _ Ha), (drop_S _ _ _ Hb). simpl.
    destruct (ne a b), ok; reflexivity.
Qed.

(** [checkCoordList] always returns, and what it returns. *)
Lemma checkCoordList_returns (l1 l2 : list A) :
  checkCoordList ne l1 l2 = Returned (pairwise_same ne l1 l2).
Proof.
  unfold checkCoordList, range.
  destruct (Nat.eqb_spec (length l1) (length l2)) as [Hlen|Hlen]; simpl.
  - rewrite (checkCoordList_loop_spec (length l1) 0) by lia. reflexivity.
  - f_equal. symmetry. apply not_true_is_false.
    rewrite pairwise_same_Forall2. intros HF.
    apply Hlen. eapply Forall2_length, HF.
Qed.

End CheckCoordListFacts.

Section CoordListFacts.
Context {num : Type} `{Number num}.

Lemma coord_ne_false (a b : num * num) :
  coord_ne a b = false <-> eqb a.1 b.1 = true /\ eqb a.2 b.2 = true.
Proof.
  unfold coord_ne. rewrite negb_false_iff, andb_true_iff. reflexivity.
Qed.

Lemma item_eq_true (x y : pyfloat num) : item_eq x y = true <-> same_item x y.
Proof.
  unfold item_eq, same_item. rewrite orb_true_iff, Pos.eqb_eq. reflexivity.
Qed.

Lemma tuple_ne_false (a b : pyfloat num * pyfloat num) :
  tuple_ne a b = false <-> same_item a.1 b.1 /\ same_item a.2 b.2.
Proof.
  unfold tuple_ne. rewrite negb_false_iff, andb_true_iff, !item_eq_true.
  reflexivity.
Qed.

(** C2: for every two lists of tuples, [checkCoordList] returns [True]
    exactly when the lists have the same length and at every index the
    two tuples are equal, element for element: the same object, or two
    floats equal by [==], with no tolerance.  In every other case it
    returns [False]; it never raises. *)
Theorem checkCoordList_iff_same_tuples
    (list1 list2 : list (pyfloat num * pyfloat num)) :
  (checkCoordList tuple_ne list1 list2 = Returned true
     <-> same_tuples list1 list2)
  /\ (checkCoordList tuple_ne list1 list2 = Returned false
     <-> ~ same_tuples list1 list2).
Proof.
  assert (Hsame : pairwise_same tuple_ne list1 list2 = true
                  <-> same_tuples list1 list2).
  { rewrite pairwise_same_Forall2, Forall2_same_length_lookup.
    unfold same_tuples. split; intros [Hlen Hall]; (split; [exact Hlen|]);
      intros i a b Ha Hb; apply tuple_ne_false; eauto. }
  rewrite checkCoordList_returns.
  destruct (pairwise_same tuple_ne list1 list2).
  - split; [tauto|]. split; [discriminate|]. intros Hn. tauto.
  - split.
    + split; [discriminate|]. intros Hs. apply Hsame in Hs. discriminate.
    + split; [|reflexivity]. intros _ Hs. apply Hsame in Hs. discriminate.
Qed.

(** Where the two tuples share no NaN object, identity adds nothing to
    [==] on the floats they hold. *)
Lemma tuple_ne_values (a b : pyfloat num * pyfloat num) :
  (oid a.1 = oid b.1 -> eqb (value a.1) (value b.1) = true) ->
  (oid a.2 = oid b.2 -> eqb (value a.2) (value b.2) = true) ->
  tuple_ne a b = coord_ne (value a.1, value a.2) (value b.1, value b.2).
Proof.
  intros H1 H2. unfold tuple_ne, coord_ne, item_eq. cbn [fst snd].
  destruct (Pos.eqb_spec (oid a.1) (oid b.1)) as [E1|_];
    [rewrite (H1 E1)|]; (destruct (Pos.eqb_spec (oid a.2) (oid b.2)) as [E2|_];
    [rewrite (H2 E2)|]); cbn [orb]; rewrite ?orb_true_r; reflexivity.
Qed.

Lemma pairwise_same_values (list1 list2 : list (pyfloat num * pyfloat num)) :
  no_shared_nan list1 list2 ->
  pairwise_same tuple_ne list1 list2
  = pairwise_same coord_ne (values list1) (values list2).
Proof.
  revert list2. induction list1 as [|a l1 IH]; intros [|b l2] Hn;
    try reflexivity.
  cbn [values fmap list_fmap pairwise_same].
  destruct (Hn 0%nat a b eq_refl eq_refl) as [H1 H2].
  rewrite (tuple_ne_values a b H1 H2). f_equal.
  apply IH. intros i a' b' Ha Hb. exact (Hn (S i) a' b' Ha Hb).
Qed.

(** The check of [checkCoords], on the floats alone, is the check of
    the code on any two lists that share no NaN object. *)
Lemma checkCoordList_values (list1 list2 : list (pyfloat num * pyfloat num)) :
  no_shared_nan list1 list2 ->
  checkCoordList tuple_ne list1 list2
  = checkCoordList coord_ne (values list1) (values list2).
Proof.
  intros Hn. rewrite !checkCoordList_returns, (pairwise_same_values _ _ Hn).
  reflexivity.
Qed.

(** With exact numbers this is equality of the two lists. *)
Lemma checkCoordList_exact `{!ExactNumber num} (list1 list2 : list (num * num)) :
  checkCoordList coord_ne list1 list2 = Returned true <-> list1 = list2.
Proof.
  rewrite checkCoordList_returns.
  assert (Returned (pairwise_same coord_ne list1 list2) = Returned true
          <-> pairwise_same coord_ne list1 list2 = true) as ->
    by (split; [intros [= E]; exact E | intros ->; reflexivity]).
  rewrite pairwise_same_Forall2, list_eq_Forall2.
  assert (forall a b : num * num, coord_ne a b = false <-> a = b) as Hne.
  { intros [x1 y1] [x2 y2]. rewrite coord_ne_false. simpl.
    rewrite !eqb_eq. split; [intros [-> ->]; reflexivity|].
    intros [= -> ->]. split; reflexivity. }
  split; intros HF; eapply Forall2_impl; try exact HF; intros a b; apply Hne.
Qed.

End CoordListFacts.

(** A list with a NaN is accepted for itself, the NaN being the same
    object on both sides, and not for a list with another NaN object
    in its place; on the floats alone the first is not told from the
    second. *)
Lemma checkCoordList_nan :
  checkCoordList tuple_ne [(nan1, one3)] [(nan1, one3)] = Returned true
  /\ checkCoordList tuple_ne [(nan1, one3)] [(nan2, one3)] = Returned false
  /\ checkCoordList coord_ne (values [(nan1, one3)]) (values [(nan1, one3)])
     = Returned false.
Proof. vm_compute. repeat split. Qed.

(** ** The expected lists *)

Section ConstantsFacts.
Context {num : Type} `{Number num} `{Defaults}.
Local Open Scope num_scope.

Local Ltac grid_case i j :=
  repeat (destruct i as [|i]; [| try lia]);
  repeat (destruct j as [|j]; [| try lia]);
  repeat split; reflexivity.

(** C6: the expected lists of the single file without overlap are the
    3-by-3 grid in row-major order, top row first: element [3*i+j] of
    the corners is [(XSTART + j*STEP, YSTART - i*STEP)], that of the
    centres is half a pixel further in, with [STEP] the pixel size times
    the default window size, and each list has 9 elements. *)
Theorem nooverlap_is_grid (i j : nat) :
  (i < 3)%nat -> (j < 3)%nat ->
  CORNERS_1FILE_NOOVERLAP !! (3 * i + j)%nat
    = Some (XSTART + $(Z.of_nat j * STEP), YSTART - $(Z.of_nat i * STEP))
  /\ CENTRES_1FILE_NOOVERLAP !! (3 * i + j)%nat
    = Some (XSTART + $(Z.of_nat j * STEP) + HALFPIX,
            YSTART - $(Z.of_nat i * STEP) - HALFPIX)
  /\ length CORNERS_1FILE_NOOVERLAP = 9%nat
  /\ length CENTRES_1FILE_NOOVERLAP = 9%nat
  /\ STEP = (DEFAULT_PIXSIZE * DEFAULTWINDOWXSIZE)%Z.
Proof. intros Hi Hj. grid_case i j. Qed.

(** C5: with the overlap set, every expected coordinate of the single
    file is the one without overlap moved outwards by the margin of
    [OLAP = 2] pixels, index by index, and all four lists have 9
    elements. *)
Theorem overlap_shifts_outward (k : nat) :
  CORNERS_1FILE_OVERLAP2 !! k = outward <$> CORNERS_1FILE_NOOVERLAP !! k
  /\ CENTRES_1FILE_OVERLAP2 !! k = outward <$> CENTRES_1FILE_NOOVERLAP !! k
  /\ length CORNERS_1FILE_NOOVERLAP = 9%nat
  /\ length CENTRES_1FILE_NOOVERLAP = 9%nat
  /\ length CORNERS_1FILE_OVERLAP2 = 9%nat
  /\ length CENTRES_1FILE_OVERLAP2 = 9%nat
  /\ MARGIN = (2 * DEFAULT_PIXSIZE)%Z.
Proof.
  do 10 (destruct k as [|k]; [repeat split; reflexivity|]).
  repeat split; reflexivity.
Qed.

(** C4, as the code has it: the two-file lists are the 2-by-2 grid in
    row-major order whose origin is [(XSTART + OFFSET_2ND_IMAGE,
    YSTART - OFFSET_2ND_IMAGE)], the top left corner of the second
    raster, moved outwards by the margin; both lists have 4 elements. *)
Theorem twofile_is_grid (i j : nat) :
  (i < 2)%nat -> (j < 2)%nat ->
  CORNERS_2FILE_OVERLAP2 !! (2 * i + j)%nat
    = Some (XSTART + $OFFSET_2ND_IMAGE + $(Z.of_nat j * STEP) - $MARGIN,
            YSTART - $OFFSET_2ND_IMAGE - $(Z.of_nat i * STEP) + $MARGIN)
  /\ CENTRES_2FILE_OVERLAP2 !! (2 * i + j)%nat
    = Some (XSTART + $OFFSET_2ND_IMAGE + $(Z.of_nat j * STEP) + HALFPIX
              - $MARGIN,
            YSTART - $OFFSET_2ND_IMAGE - $(Z.of_nat i * STEP) - HALFPIX
              + $MARGIN)
  /\ length CORNERS_2FILE_OVERLAP2 = 4%nat
  /\ length CENTRES_2FILE_OVERLAP2 = 4%nat
  /\ OFFSET_2ND_IMAGE = (100 * DEFAULT_PIXSIZE)%Z.
Proof. intros Hi Hj. grid_case i j. Qed.

(** Without overlap the expected centres are written as the expected
    corners with the half pixel added, whatever the numbers; with
    overlap the margin is taken off after the half pixel is added, on
    the corners before. *)
Lemma centres_nooverlap_from_corners (k : nat) :
  CENTRES_1FILE_NOOVERLAP !! k = to_centre <$> CORNERS_1FILE_NOOVERLAP !! k.
Proof. do 10 (destruct k as [|k]; [reflexivity|]). reflexivity. Qed.

Lemma centres_overlap_from_nooverlap (k : nat) :
  CORNERS_1FILE_OVERLAP2 !! k = outward <$> CORNERS_1FILE_NOOVERLAP !! k
  /\ CENTRES_1FILE_OVERLAP2 !! k
     = outward <$> (to_centre <$> CORNERS_1FILE_NOOVERLAP !! k).
Proof.
  do 10 (destruct k as [|k]; [split; reflexivity|]). split; reflexivity.
Qed.

Section Exact.
Context `{!ExactNumber num}.

Lemma to_centre_outward c : outward (to_centre c) = to_centre (outward c).
Proof.
  destruct c as [x y]. unfold outward, to_centre. simpl. f_equal.
  - apply add_sub_swap.
  - symmetry. apply add_sub_swap.
Qed.

(** In arithmetic that does not round, every expected centre is the
    expected corner of the same index moved half a pixel into the
    block. *)
Lemma centres_from_corners_exact (k : nat) :
  CENTRES_1FILE_NOOVERLAP !! k = to_centre <$> CORNERS_1FILE_NOOVERLAP !! k
  /\ CENTRES_1FILE_OVERLAP2 !! k = to_centre <$> CORNERS_1FILE_OVERLAP2 !! k
  /\ CENTRES_2FILE_OVERLAP2 !! k = to_centre <$> CORNERS_2FILE_OVERLAP2 !! k
  /\ HALFPIX = half * $DEFAULT_PIXSIZE.
Proof.
  split; [|split; [|split]]; [| | |reflexivity].
  - apply centres_nooverlap_from_corners.
  - do 10 (destruct k as [|k];
      [try reflexivity; simpl; f_equal; apply (to_centre_outward (_, _))|]).
    reflexivity.
  - do 5 (destruct k as [|k];
      [try reflexivity; simpl; f_equal; apply (to_centre_outward (_, _))|]).
    reflexivity.
Qed.

End Exact.
End ConstantsFacts.

(** The same on binary64 floats at the sample values, where every
    number involved is an integer or a half integer far below 2^53 and
    no operation rounds. *)
Lemma centres_from_corners_binary64 :
  let _ := sample_defaults in
  @CENTRES_1FILE_NOOVERLAP float _ _ = to_centre <$> CORNERS_1FILE_NOOVERLAP
  /\ @CENTRES_1FILE_OVERLAP2 float _ _ = to_centre <$> CORNERS_1FILE_OVERLAP2
  /\ @CENTRES_2FILE_OVERLAP2 float _ _ = to_centre <$> CORNERS_2FILE_OVERLAP2.
Proof. vm_compute. repeat split. Qed.

(** *** On binary64, for constants in range *)

Lemma elem_of_range z n : z ∈ range n -> 0 <= z < Z.of_nat n.
Proof.
  unfold range. intros (k & -> & Hk)%list_elem_of_fmap.
  apply elem_of_seq in Hk. lia.
Qed.

Lemma bind_ext_in {A B} (f g : A -> list B) (l : list A) :
  (forall x, x ∈ l -> f x = g x) -> l ≫= f = l ≫= g.
Proof.
  induction l as [|a l IH]; intros Hfg; [reflexivity|].
  cbn. rewrite (Hfg a) by left. f_equal.
  apply IH. intros x Hx. apply Hfg. right. exact Hx.
Qed.

(** Two lists built over the same grid of blocks are equal when they
    are equal block by block. *)
Lemma grid_ext {A} (f g : Z -> Z -> A) (n m : nat) :
  (forall i j, 0 <= i < Z.of_nat n -> 0 <= j < Z.of_nat m -> f i j = g i j) ->
  (i ← range n; j ← range m; [f i j]) = (i ← range n; j ← range m; [g i j]).
Proof.
  intros Hfg. apply bind_ext_in. intros i Hi. apply bind_ext_in. intros j Hj.
  rewrite Hfg by (apply elem_of_range; assumption). reflexivity.
Qed.

Ltac small_index i :=
  match goal with
  | H : 0 <= i < Z.of_nat ?n |- _ =>
      let E := fresh in
      assert (E : i = 0 \/ i = 1 \/ i = 2) by (cbn in H; lia);
      clear H; destruct E as [->|[->| ->]]
  end.

(** Both sides are sums and differences of the constants: computed in
    the integers, in half units. *)
Ltac exact_floats :=
  cbn [add sub mul of_int half float_Number];
  rewrite !float_of_int_fl by lia;
  rewrite ?fl_half by lia;
  repeat first [rewrite fl_add by lia | rewrite fl_sub by lia];
  f_equal; lia.

Ltac in_range_bounds Hr :=
  let Hx := fresh "Hx" in
  let Hy := fresh "Hy" in
  destruct Hr as [Hx Hy]; unfold reach in Hx, Hy.

Lemma centres_overlap_binary64 (D : Defaults) :
  in_range ->
  @CENTRES_1FILE_OVERLAP2 float _ D = to_centre <$> CORNERS_1FILE_OVERLAP2.
Proof.
  intros Hr. in_range_bounds Hr.
  change (to_centre <$> CORNERS_1FILE_OVERLAP2)
    with (i ← range 3; j ← range 3;
          [ @to_centre float _ D
              (XSTART + $(j * STEP) - $MARGIN,
               YSTART - $(i * STEP) + $MARGIN)%num ]).
  apply grid_ext. intros i j Hi Hj.
  unfold to_centre, HALFPIX, XSTART, YSTART, MARGIN, OLAP. cbn [fst snd].
  small_index i; small_index j; f_equal; exact_floats.
Qed.

Lemma centres_twofile_binary64 (D : Defaults) :
  in_range ->
  @CENTRES_2FILE_OVERLAP2 float _ D = to_centre <$> CORNERS_2FILE_OVERLAP2.
Proof.
  intros Hr. in_range_bounds Hr.
  change (to_centre <$> CORNERS_2FILE_OVERLAP2)
    with (i ← range 2; j ← range 2;
          [ @to_centre float _ D
              (XSTART + $OFFSET_2ND_IMAGE + $(j * STEP) - $MARGIN,
               YSTART - $OFFSET_2ND_IMAGE - $(i * STEP) + $MARGIN)%num ]).
  apply grid_ext. intros i j Hi Hj.
  unfold to_centre, HALFPIX, XSTART, YSTART, MARGIN, OLAP, OFFSET_2ND_IMAGE.
  cbn [fst snd].
  small_index i; small_index j; f_equal; exact_floats.
Qed.

(** C7, on the floats of the code: when the constants are in range, in
    each of the three scenarios the expected centre is the expected
    corner of the same index moved half a pixel into the block,
    [(x + HALFPIX, y - HALFPIX)] with [HALFPIX = 0.5 * PIX]. *)
Theorem centres_from_corners_in_range (D : Defaults) :
  in_range ->
  @centres_are_corners_moved_to_centre float _ D
  /\ @HALFPIX float _ D = (0.5 * float_of_int DEFAULT_PIXSIZE)%float.
Proof.
  intros Hr. split; [|reflexivity]. intros k. split; [|split].
  - apply centres_nooverlap_from_corners.
  - rewrite (centres_overlap_binary64 D Hr). apply list_lookup_fmap.
  - rewrite (centres_twofile_binary64 D Hr). apply list_lookup_fmap.
Qed.

(** The sample values are in range. *)
Lemma centres_from_corners_in_range_witness :
  @in_range sample_defaults
  /\ @CENTRES_2FILE_OVERLAP2 float _ sample_defaults !! 3%nat
     = @to_centre float _ sample_defaults
         <$> @CORNERS_2FILE_OVERLAP2 float _ sample_defaults !! 3%nat.
Proof.
  assert (Hr : @in_range sample_defaults) by (split; reflexivity).
  split; [exact Hr|].
  exact (proj2 (proj2
    (proj1 (centres_from_corners_in_range sample_defaults Hr) 3%nat))).
Defined.

(** C7 as stated fails beyond the range: with an origin of 2^53 + 2 and
    pixels of 2 the first expected corner with overlap is at
    [x = 2^53 - 2], its pixel centre at [2^53 - 1], and the first
    expected centre at [2^53]: adding the half pixel to the origin
    rounds, before the margin is taken off. *)
Lemma centres_not_from_corners_beyond_range :
  ~ @centres_are_corners_moved_to_centre float _ large_defaults.
Proof.
  intros C. destruct (C 0%nat) as (_ & C2 & _).
  apply (f_equal (fun c => match c with
                           | Some (x, _) => PrimFloat.eqb x 9007199254740992
                           | None => false
                           end)) in C2.
  vm_compute in C2. discriminate C2.
Qed.

(** The grid at the sample values, second row, third column. *)
Lemma nooverlap_is_grid_witness :
  (1 < 3)%nat /\ (2 < 3)%nat /\
  @CORNERS_1FILE_NOOVERLAP float _ sample_defaults !! 5%nat
    = Some (504000%float, 6998000%float).
Proof.
  split; [lia|]. split; [lia|].
  exact (proj1 (@nooverlap_is_grid float _ sample_defaults 1 2
                  ltac:(lia) ltac:(lia))).
Defined.

(** The two-file grid at the sample values, second row, first column. *)
Lemma twofile_is_grid_witness :
  (1 < 2)%nat /\ (0 < 2)%nat /\
  @CORNERS_2FILE_OVERLAP2 float _ sample_defaults !! 2%nat
    = Some (500980%float, 6997020%float).
Proof.
  split; [lia|]. split; [lia|].
  exact (proj1 (@twofile_is_grid float _ sample_defaults 1 0
                  ltac:(lia) ltac:(lia))).
Defined.

(** C4 as stated fails: at the sample values the first expected corner
    of the two-file run is [(500980, 6999020)], 100 pixels right of and
    below [(XSTART - MARGIN, YSTART + MARGIN) = (499980, 7000020)]. *)
Lemma twofile_grid_not_from_union_origin :
  ~ @twofile_grid_from_union_origin float _ sample_defaults.
Proof.
  intros [G _]. specialize (G 0%nat 0%nat ltac:(lia) ltac:(lia)).
  apply (f_equal (fun c => match c with
                           | Some (x, _) => PrimFloat.eqb x 500980
                           | None => false
                           end)) in G.
  vm_compute in G. discriminate G.
Qed.

Lemma Qc_offset_cancel (a o z m : Qc) :
  (a + o + z - m = a + z - m)%Qc -> o = Q2Qc 0.
Proof.
  intros E. transitivity ((a + o + z - m) - (a + z - m))%Qc; [ring|].
  rewrite E. ring.
Qed.

(** With exact numbers the reading from the union origin holds for no
    pixel size but zero. *)
Lemma twofile_union_origin_needs_zero_pixel (D : Defaults) :
  @twofile_grid_from_union_origin Qc _ D -> DEFAULT_PIXSIZE = 0.
Proof.
  intros [G _]. specialize (G 0%nat 0%nat ltac:(lia) ltac:(lia)).
  apply (f_equal (fun c : option (Qc * Qc) =>
                    match c with Some (x, _) => x | None => Q2Qc 0 end)) in G.
  cbv beta iota in G. apply Qc_offset_cancel in G.
  apply Q2Qc_eq_iff in G. unfold Qeq in G. simpl in G.
  unfold OFFSET_2ND_IMAGE, PIX in G. lia.
Qed.

(** ** [getCoords] *)

Section GetCoordsFacts.
Context {num : Type} `{Number num}.
Implicit Types (o : gmap string (list (num * num))) (info : ReaderInfo num).

Lemma attr_append_returns o name l v :
  o !! name = Some l ->
  attr_append name v o = (Returned PyNone, <[name := l ++ [v]]> o).
Proof. intros Ho. unfold attr_append, getattr. rewrite Ho. reflexivity. Qed.

(** One invocation on a block that has a corner and a first cell. *)
Lemma getCoords_returns info inputs outputs o lc lk c k :
  o !! "cornersList" = Some lc -> o !! "centresList" = Some lk ->
  block_corner info = Returned c -> block_centre info = Returned k ->
  getCoords info inputs outputs o
    = (Returned PyNone,
       <["centresList" := lk ++ [k]]> (<["cornersList" := lc ++ [c]]> o)).
Proof.
  intros Hlc Hlk Hc Hk. unfold getCoords, block_corner, block_centre in *.
  unfold bind at 1. unfold eval at 1. rewrite Hc. destruct c as [x y].
  unfold bind at 1. rewrite (attr_append_returns _ _ _ _ Hlc).
  unfold bind at 1. unfold eval at 1.
  destruct (getBlockCoordArrays info) as [[xs ys]|]; [|discriminate].
  assert (Hlk' : <["cornersList" := lc ++ [(x, y)]]> o !! "centresList"
                 = Some lk).
  { rewrite lookup_insert_ne by discriminate. exact Hlk. }
  unfold bind at 1. unfold load_attr, getattr. rewrite Hlk'.
  unfold bind at 1. unfold eval at 1.
  destruct (item xs 0 0) as [x00|]; [|discriminate].
  unfold bind at 1. unfold eval at 1.
  destruct (item ys 0 0) as [y00|]; [|discriminate].
  injection Hk as <-.
  unfold bind at 1. rewrite (attr_append_returns _ "centresList" lk _ Hlk').
  reflexivity.
Qed.

(** The callback run over the blocks [bs], as [applier.apply] does. *)
Lemma callbacks_append (bs : list (ReaderInfo num * BlockAssociations num))
    o lc lk :
  Forall (fun b => readable b.1) bs ->
  o !! "cornersList" = Some lc -> o !! "centresList" = Some lk ->
  exists o' cs ks,
    for_each bs (fun b => getCoords b.1 b.2 ∅) o = (Returned tt, o')
    /\ o' !! "cornersList" = Some (lc ++ cs)
    /\ o' !! "centresList" = Some (lk ++ ks)
    /\ Forall2 (fun b c => block_corner b.1 = Returned c) bs cs
    /\ Forall2 (fun b k => block_centre b.1 = Returned k) bs ks
    /\ (forall name, name <> "cornersList" -> name <> "centresList" ->
          o' !! name = o !! name).
Proof.
  intros Hbs. revert o lc lk.
  induction Hbs as [|b bs [[c Hc] [k Hk]] _ IH]; intros o lc lk Hlc Hlk.
  - exists o, [], []. rewrite !app_nil_r. repeat split; auto; constructor.
  - simpl. unfold bind at 1.
    rewrite (getCoords_returns _ _ _ _ _ _ _ _ Hlc Hlk Hc Hk).
    destruct (IH (<["centresList" := lk ++ [k]]>
                    (<["cornersList" := lc ++ [c]]> o))
                 (lc ++ [c]) (lk ++ [k]))
      as (o' & cs & ks & Hrun & Hcs & Hks & Fc & Fk & Hother).
    { rewrite lookup_insert_ne by discriminate. apply lookup_insert_eq. }
    { apply lookup_insert_eq. }
    exists o', (c :: cs), (k :: ks). rewrite Hrun, Hcs, Hks.
    rewrite <- !app_assoc. repeat split; auto.
    intros name N1 N2. rewrite Hother by assumption.
    rewrite !lookup_insert_ne by congruence. reflexivity.
Qed.

(** C10: an invocation of [getCoords] on a block that yields a corner
    [c] and a first cell [k] returns [None], appends exactly [c] to
    [otherargs.cornersList] and exactly [k] to [otherargs.centresList]
    and leaves every other attribute of [otherargs] as it was, so equal
    lengths of the two lists stay equal; and after the invocations on
    [n] such blocks, from empty lists, both lists have length [n]. *)
Theorem getCoords_appends_one info inputs outputs o lc lk c k
    (bs : list (ReaderInfo num * BlockAssociations num)) :
  o !! "cornersList" = Some lc -> o !! "centresList" = Some lk ->
  block_corner info = Returned c -> block_centre info = Returned k ->
  Forall (fun b => readable b.1) bs ->
  (exists o',
     getCoords info inputs outputs o = (Returned PyNone, o')
     /\ o' !! "cornersList" = Some (lc ++ [c])
     /\ o' !! "centresList" = Some (lk ++ [k])
     /\ (forall name, name <> "cornersList" -> name <> "centresList" ->
           o' !! name = o !! name)
     /\ (length lc = length lk -> length (lc ++ [c]) = length (lk ++ [k])))
  /\ (lc = [] -> lk = [] ->
      exists o' cs ks,
        for_each bs (fun b => getCoords b.1 b.2 ∅) o = (Returned tt, o')
        /\ o' !! "cornersList" = Some cs /\ o' !! "centresList" = Some ks
        /\ length cs = length bs /\ length ks = length bs).
Proof.
  intros Hlc Hlk Hc Hk Hbs. split.
  - eexists. split; [apply (getCoords_returns _ _ _ _ _ _ _ _ Hlc Hlk Hc Hk)|].
    split; [|split; [|split]].
    + rewrite lookup_insert_ne by discriminate. apply lookup_insert_eq.
    + apply lookup_insert_eq.
    + intros name N1 N2. rewrite !lookup_insert_ne by congruence. reflexivity.
    + intros Hlen. rewrite !length_app, Hlen. reflexivity.
  - intros -> ->.
    destruct (callbacks_append bs o [] [] Hbs Hlc Hlk)
      as (o' & cs & ks & Hrun & Hcs & Hks & Fc & Fk & _).
    exists o', cs, ks. repeat split; try assumption.
    + symmetry. eapply Forall2_length, Fc.
    + symmetry. eapply Forall2_length, Fk.
Qed.

End GetCoordsFacts.

(** ** [checkCoords] *)

Section CheckCoordsFacts.
Context {num : Type} `{Number num} (env : Env num).
Implicit Types (o : gmap string (list (num * num))) (s : State num).

Local Ltac step_checkCoords :=
  unfold checkCoords, bind, eval, ret, call, getattr;
  rewrite ?checkCoordList_returns;
  repeat (simpl in *;
          match goal with
          | H : (_, _) = (_, _) |- _ => injection H as ? ?; subst
          | H : Raised _ = Returned _ |- _ => discriminate H
          | H : context [match ?x with _ => _ end] |- _ => destruct x eqn:?
          | |- context [match ?x with _ => _ end] => destruct x eqn:?
          end).

(** C3: whatever it is given, [checkCoords] returns [None] when it
    returns, which a caller reads as false; and it does return when the
    accumulator has its two lists and the reporting helper does not
    raise. *)
Theorem checkCoords_returns_None testConditionStr o cornersList centresList s :
  (forall v s', checkCoords env testConditionStr o cornersList centresList s
                = (Returned v, s') -> v = PyNone /\ truthy v = false)
  /\ (is_Some (o !! "cornersList") -> is_Some (o !! "centresList") ->
      (forall tr t m, raises env tr (report t m) = None) ->
      exists s', checkCoords env testConditionStr o cornersList centresList s
                 = (Returned PyNone, s')).
Proof.
  split.
  - intros v s' Hrun. revert Hrun. step_checkCoords; intros; step_checkCoords;
      split; reflexivity.
  - intros [lc Hlc] [lk Hlk] Hquiet.
    unfold checkCoords, bind, eval, ret, call, getattr.
    rewrite Hlc, Hlk, !checkCoordList_returns.
    destruct (pairwise_same coord_ne lc cornersList),
             (pairwise_same coord_ne lk centresList); simpl;
      rewrite ?Hquiet; simpl; rewrite ?Hquiet; eexists; reflexivity.
Qed.

(** C8: when [checkCoords] returns, the calls it has made are exactly
    these: the corner message, with the accumulated and the expected
    list, if and only if [checkCoordList] returned [False] on the
    corners, then the centre message likewise for the centres; none
    when both comparisons returned [True]. *)
Theorem checkCoords_reports testConditionStr o cornersList centresList
    s lc lk v s' :
  o !! "cornersList" = Some lc -> o !! "centresList" = Some lk ->
  checkCoords env testConditionStr o cornersList centresList s
    = (Returned v, s') ->
  exists (okc okk : bool) new,
    checkCoordList coord_ne lc cornersList = Returned okc
    /\ checkCoordList coord_ne lk centresList = Returned okk
    /\ trace s' = trace s ++ new
    /\ new = (if okc then []
              else [(corner_mismatch testConditionStr lc cornersList, None)])
             ++ (if okk then []
                 else [(centre_mismatch testConditionStr lk centresList, None)])
    /\ ((corner_mismatch testConditionStr lc cornersList, None) ∈ new
          <-> okc = false)
    /\ ((centre_mismatch testConditionStr lk centresList, None) ∈ new
          <-> okk = false)
    /\ (okc = true -> okk = true -> new = []).
Proof.
  intros Hlc Hlk Hrun.
  exists (pairwise_same coord_ne lc cornersList),
         (pairwise_same coord_ne lk centresList).
  exists ((if pairwise_same coord_ne lc cornersList then []
           else [(corner_mismatch testConditionStr lc cornersList, None)])
          ++ (if pairwise_same coord_ne lk centresList then []
              else [(centre_mismatch testConditionStr lk centresList, None)])).
  rewrite !checkCoordList_returns.
  do 2 (split; [reflexivity|]).
  revert Hrun. unfold checkCoords, bind, eval, ret, call, getattr.
  rewrite Hlc, Hlk, !checkCoordList_returns.
  unfold corner_mismatch, centre_mismatch, TESTNAME.
  destruct (pairwise_same coord_ne lc cornersList),
           (pairwise_same coord_ne lk centresList); simpl;
    repeat (match goal with
            | |- context [raises env ?tr ?ev] =>
                destruct (raises env tr ev) eqn:?; simpl
            end);
    intros [= <- <-]; simpl; rewrite <- ?app_assoc, ?app_nil_r; simpl;
    rewrite ?elem_of_cons, ?elem_of_nil;
    repeat split; try tauto; try congruence; intros; try discriminate;
    repeat match goal with
           | Hor : _ \/ _ |- _ => destruct Hor
           | Heq : (_, _) = (_, _) |- _ => discriminate Heq
           end; tauto.
Qed.

End CheckCoordsFacts.

(** ** What the steps of [run] add to the trace *)

Section TraceFacts.
Context {num : Type} `{Number num} (env : Env num).
Implicit Types (P : Event num -> Prop) (s : State num).

Lemma Only_silent P {A} (m : prog (State num) A) :
  (forall s, trace (m s).2 = trace s) -> Only P m.
Proof.
  intros Hm s. exists []. rewrite Hm, app_nil_r.
  split; [reflexivity|]. split; [constructor|]. intros _ _. constructor.
Qed.

Lemma Only_ret P {A} (a : A) : Only P (ret a).
Proof. apply Only_silent. reflexivity. Qed.

Lemma Only_eval P {A} (r : result A) : Only P (eval r).
Proof. apply Only_silent. reflexivity. Qed.

Lemma Only_get P {A} (field : State num -> A) : Only P (get field).
Proof. apply Only_silent. reflexivity. Qed.

Lemma Only_set_infiles P f : Only P (set_infiles f).
Proof. apply Only_silent. reflexivity. Qed.

Lemma Only_set_outfiles P f : Only P (set_outfiles f).
Proof. apply Only_silent. reflexivity. Qed.

Lemma Only_set_otherargs P o : Only P (set_otherargs o).
Proof. apply Only_silent. reflexivity. Qed.

Lemma Only_set_controls P c : Only P (set_controls c).
Proof. apply Only_silent. reflexivity. Qed.

Lemma Only_call P ev : P ev -> Only P (call env ev).
Proof.
  intros Hev s. exists [(ev, raises env (trace s) ev)].
  split; [reflexivity|]. split; [repeat constructor; exact Hev|].
  intros a. unfold call. simpl.
  destruct (raises env (trace s) ev); [discriminate|].
  intros _. repeat constructor.
Qed.

Lemma Only_bind P {A B} (m : prog (State num) A) (k : A -> prog (State num) B) :
  Only P m -> (forall a, Only P (k a)) -> Only P (bind m k).
Proof.
  intros Hm Hk s. unfold bind. destruct (Hm s) as (n1 & T1 & F1 & N1).
  destruct (m s) as [[a|e] s1]; simpl in *.
  - destruct (Hk a s1) as (n2 & T2 & F2 & N2). exists (n1 ++ n2).
    rewrite T2, T1, app_assoc. split; [reflexivity|]. split.
    + apply Forall_app; split; assumption.
    + intros b Hb. apply Forall_app; split; eauto.
  - exists n1. split; [assumption|]. split; [assumption|]. discriminate.
Qed.

Lemma Only_apply P userFunc :
  (forall i o c, P (applier_apply i o c)) -> Only P (apply_ env userFunc).
Proof.
  intros HP s. unfold apply_.
  destruct (for_each _ _ _) as [[[]|e] o].
  - destruct (Only_call P (applier_apply (infiles s) (outfiles s) (controls s))
                (HP _ _ _) (put_otherargs o s)) as (new & T & F & N).
    exists new. split; [exact T|]. split; assumption.
  - eexists. split; [reflexivity|]. split; [repeat constructor; apply HP|].
    discriminate.
Qed.

Lemma Only_checkCoords P testConditionStr o cornersList centresList :
  (forall t m, P (report t m)) ->
  Only P (checkCoords env testConditionStr o cornersList centresList).
Proof.
  intros HP. unfold checkCoords.
  repeat (first [ apply Only_eval | apply Only_ret
                | apply Only_call; apply HP
                | match goal with
                  | |- Only _ (if ?b then _ else _) => destruct b
                  end
                | apply Only_bind; [|intros ?] ]).
Qed.

Lemma cleanup_prepend P r pre new :
  Forall (fun en => P en.1) pre ->
  (forall v, r = Returned v -> Forall (fun en => en.2 = None) pre) ->
  cleanup P r new -> cleanup P r (pre ++ new).
Proof.
  intros Hpre Hnone Hnew. destruct Hnew; rewrite ?app_assoc.
  - apply cleanup_skipped, Forall_app. split; assumption.
  - apply cleanup_first_raised, Forall_app. split; assumption.
  - apply cleanup_second_raised, Forall_app. split; assumption.
  - apply cleanup_done; apply Forall_app; split; try assumption.
    eapply Hnone. reflexivity.
Qed.

Lemma cleanup_weaken (P Q : Event num -> Prop) r new :
  (forall ev, P ev -> Q ev) -> cleanup P r new -> cleanup Q r new.
Proof.
  intros HPQ Hnew.
  assert (forall l, Forall (fun en : Event num * option exn => P en.1) l ->
                    Forall (fun en => Q en.1) l) as Hl.
  { intros l Hl. eapply Forall_impl; [exact Hl|]. intros en. apply HPQ. }
  destruct Hnew.
  - apply cleanup_skipped; auto.
  - apply cleanup_first_raised; auto.
  - apply cleanup_second_raised; auto.
  - apply cleanup_done; auto.
Qed.

Lemma Cleans_bind P {A} (m : prog (State num) A) k :
  Only P m -> (forall a, Cleans P (k a)) -> Cleans P (bind m k).
Proof.
  intros Hm Hk s. unfold bind. destruct (Hm s) as (n1 & T1 & F1 & N1).
  destruct (m s) as [[a|e] s1]; simpl in *.
  - destruct (Hk a s1) as (n2 & T2 & C2). exists (n1 ++ n2).
    rewrite T2, T1, app_assoc. split; [reflexivity|].
    apply cleanup_prepend; eauto.
  - exists n1. split; [assumption|]. constructor. assumption.
Qed.

(** The clean-up loop, followed by the [return]. *)
Lemma Cleans_remove_loop P (allOK : bool) :
  Cleans P (for_each ["ramp1.img"; "ramp2.img"]
              (fun filename => call env (os_remove filename)) ;;
            ret (PyBool allOK))%prog.
Proof.
  intros s. cbv [bind for_each call ret]. simpl.
  destruct (raises env (trace s) (os_remove "ramp1.img")) as [e1|]; simpl.
  { exists [(os_remove "ramp1.img", Some e1)]. split; [reflexivity|].
    apply (cleanup_first_raised P e1 []). constructor. }
  destruct (raises env (trace s ++ [(os_remove "ramp1.img", None)])
              (os_remove "ramp2.img")) as [e2|]; simpl.
  - exists [(os_remove "ramp1.img", None); (os_remove "ramp2.img", Some e2)].
    rewrite <- app_assoc. split; [reflexivity|].
    apply (cleanup_second_raised P e2 []). constructor.
  - exists [(os_remove "ramp1.img", None); (os_remove "ramp2.img", None)].
    rewrite <- app_assoc. split; [reflexivity|].
    apply (cleanup_done P _ []); constructor.
Qed.

Lemma Returns_bind {S A B} (Q : B -> Prop) (R : A -> Prop)
    (m : prog S A) (k : A -> prog S B) :
  Returns R m -> (forall a, R a -> Returns Q (k a)) -> Returns Q (bind m k).
Proof.
  intros Hm Hk s b s'. unfold bind.
  destruct (m s) as [[a|e] s1] eqn:E; [|discriminate].
  intros Hrun. eapply Hk; [|exact Hrun]. eapply Hm, E.
Qed.

Lemma Returns_any {S A} (m : prog S A) : Returns (fun _ => True) m.
Proof. intros s a s' _. exact I. Qed.

Lemma Returns_ret {S A} (Q : A -> Prop) (a : A) : Q a -> Returns Q (@ret S A a).
Proof. intros Ha s a' s' [= <- _]. exact Ha. Qed.

Lemma checkCoords_None testConditionStr o cornersList centresList :
  Returns (fun v => v = PyNone)
    (checkCoords env testConditionStr o cornersList centresList).
Proof.
  unfold checkCoords.
  repeat (eapply Returns_bind; [apply Returns_any|intros ? _]).
  apply Returns_ret. reflexivity.
Qed.

End TraceFacts.

(** ** [run] *)

Section RunFacts.
Context {num : Type} `{Number num} `{Defaults} (env : Env num).
Implicit Types (s : State num).

Lemma middle_not_remove (ev : Event num) : middle ev -> not_remove ev.
Proof. destruct ev; simpl; tauto. Qed.

Local Ltac only_steps :=
  repeat (first [ apply Only_checkCoords; intros; exact I
                | apply Only_apply; intros; exact I
                | apply Only_call; exact I
                | apply Only_eval | apply Only_ret | apply Only_get
                | apply Only_set_infiles | apply Only_set_outfiles
                | apply Only_set_otherargs | apply Only_set_controls
                | apply Only_bind; [|intros ?] ]).

(** Whatever [run] returns, it is [False]: [checkCoords] hands back
    [None], so the first [if not ok] already clears [allOK]. *)
Lemma run_never_True : Returns (fun v => v = PyBool false) (run env).
Proof.
  unfold run.
  do 15 (eapply Returns_bind; [apply Returns_any|intros ? _]).
  eapply Returns_bind; [apply checkCoords_None|intros ok ->].
  repeat (eapply Returns_bind; [apply Returns_any|intros ? _]).
  apply Returns_ret. simpl.
  repeat match goal with
         | |- context [truthy ?v] => destruct (truthy v)
         end; reflexivity.
Qed.

(** C9: the calls of a run that returns are, in this order,
    [reportStart], the creation of [ramp1.img] and of [ramp2.img], then
    only [apply] and [report] calls, then the removal of [ramp1.img] and
    of [ramp2.img], and none of them raised, whatever the checks found.
    A run that raises has made no [os.remove] call at all, unless it was
    an [os.remove] that raised; [ramp2.img] is then never removed. *)
Theorem run_creates_then_removes s r s' :
  run env s = (r, s') ->
  exists new,
    trace s' = trace s ++ new
    /\ cleanup not_remove r new
    /\ (forall v, r = Returned v ->
        exists mid,
          new = [(reportStart "TESTCOORDS", None);
                 (genRampImageFile "ramp1.img" None None, None);
                 (genRampImageFile "ramp2.img"
                    (Some (DEFAULT_XLEFT + 100 * DEFAULT_PIXSIZE))
                    (Some (DEFAULT_YTOP - 100 * DEFAULT_PIXSIZE)), None)]
                ++ mid
                ++ [(os_remove "ramp1.img", None);
                    (os_remove "ramp2.img", None)]
          /\ Forall (fun en => middle en.1) mid
          /\ Forall (fun en => en.2 = None) mid).
Proof.
  intros Hrun. revert Hrun. unfold run. cbv zeta.
  unfold bind at 1. unfold call at 1.
  destruct (raises env (trace s) (reportStart TESTNAME)) as [e|] eqn:E1.
  { intros [= <- <-]. eexists. split; [reflexivity|]. split.
    - constructor. repeat constructor.
    - discriminate. }
  unfold bind at 1. unfold call at 1. simpl trace.
  destruct (raises env _ (genRampImageFile "ramp1.img" None None))
    as [e|] eqn:E2.
  { intros [= <- <-]. simpl. rewrite <- app_assoc. eexists.
    split; [reflexivity|]. split.
    - constructor. repeat constructor.
    - discriminate. }
  unfold bind at 1. unfold call at 1. simpl trace.
  destruct (raises env _ (genRampImageFile "ramp2.img" _ _)) as [e|] eqn:E3.
  { intros [= <- <-]. simpl. rewrite <- !app_assoc. eexists.
    split; [reflexivity|]. split.
    - constructor. repeat constructor.
    - discriminate. }
  match goal with
  | |- ?rest ?s3 = _ -> _ =>
      assert (Cleans middle rest) as Hrest;
      [| destruct (Hrest s3) as (n & T & C); intros Hrun;
         rewrite Hrun in T, C; simpl in T, C ]
  end.
  { repeat (apply Cleans_bind; [solve [only_steps]|intros ?]).
    apply Cleans_remove_loop. }
  rewrite <- !app_assoc in T. eexists. split; [exact T|]. split.
  - apply (cleanup_prepend not_remove r [_; _; _]);
      [repeat constructor|intros; repeat constructor|].
    eapply cleanup_weaken; [apply middle_not_remove|exact C].
  - intros v ->. inversion C as [| | |v' mid Hmid Hnone]; subst.
    exists mid. split; [reflexivity|]. split; assumption.
Qed.

End RunFacts.

(** ** The success path *)

Section SuccessPath.
Context {num : Type} `{Number num} `{Defaults} (env : Env num).
Hypothesis Hsuccess : success_path env.
Implicit Types (o : gmap string (list (num * num))) (s : State num).

Lemma Total_bind o {A B} (m : prog (State num) A) J
    (k : A -> prog (State num) B) K :
  Total o m J -> (forall a o1, J a o1 -> Total o1 (k a) K) ->
  Total o (bind m k) K.
Proof.
  intros Hm Hk s Hs. destruct (Hm s Hs) as (a & s1 & E1 & H1).
  destruct (Hk a _ H1 s1 eq_refl) as (b & s2 & E2 & H2).
  exists b, s2. unfold bind. rewrite E1. split; assumption.
Qed.

(** A step that returns and leaves [otherargs] alone. *)
Lemma Total_frame o {A} (m : prog (State num) A) :
  (forall s, exists a s', m s = (Returned a, s') /\ otherargs s' = otherargs s) ->
  Total o m (fun _ o1 => o1 = o).
Proof.
  intros Hm s Hs. destruct (Hm s) as (a & s' & E & Ho).
  exists a, s'. rewrite Ho. split; assumption.
Qed.

Lemma Total_call o ev : Total o (call env ev) (fun _ o1 => o1 = o).
Proof.
  apply Total_frame. intros s. unfold call.
  rewrite (proj1 Hsuccess). eexists _, _. split; reflexivity.
Qed.

Lemma Total_set_infiles o f : Total o (set_infiles f) (fun _ o1 => o1 = o).
Proof. apply Total_frame. intros s. eexists _, _. split; reflexivity. Qed.

Lemma Total_set_outfiles o f : Total o (set_outfiles f) (fun _ o1 => o1 = o).
Proof. apply Total_frame. intros s. eexists _, _. split; reflexivity. Qed.

Lemma Total_set_controls o c : Total o (set_controls c) (fun _ o1 => o1 = o).
Proof. apply Total_frame. intros s. eexists _, _. split; reflexivity. Qed.

Lemma Total_get_infiles o : Total o (get infiles) (fun _ o1 => o1 = o).
Proof. apply Total_frame. intros s. eexists _, _. split; reflexivity. Qed.

Lemma Total_get_controls o : Total o (get controls) (fun _ o1 => o1 = o).
Proof. apply Total_frame. intros s. eexists _, _. split; reflexivity. Qed.

Lemma Total_get_otherargs o :
  Total o (get otherargs) (fun a o1 => a = o /\ o1 = o).
Proof. intros s Hs. eexists _, _. split; [reflexivity|]. split; exact Hs. Qed.

Lemma Total_set_otherargs o o' :
  Total o (set_otherargs o') (fun _ o1 => o1 = o').
Proof. intros s Hs. eexists _, _. split; reflexivity. Qed.

Lemma Total_apply o :
  has_lists o -> Total o (apply_ env getCoords) (fun _ o1 => has_lists o1).
Proof.
  intros [[lc Hlc] [lk Hlk]] s Hs. subst o. unfold apply_.
  destruct (callbacks_append
              (blocks env (trace s)
                 (applier_apply (infiles s) (outfiles s) (controls s)))
              (otherargs s) lc lk (proj2 Hsuccess _ _) Hlc Hlk)
    as (o' & cs & ks & Hrun & Hcs & Hks & _).
  rewrite Hrun. unfold call. rewrite (proj1 Hsuccess).
  eexists _, _. split; [reflexivity|]. simpl. split; eexists; eassumption.
Qed.

Lemma Total_checkCoords o testConditionStr o' cornersList centresList :
  has_lists o' ->
  Total o (checkCoords env testConditionStr o' cornersList centresList)
    (fun _ o1 => o1 = o).
Proof.
  intros [[lc Hlc] [lk Hlk]]. apply Total_frame. intros s.
  unfold checkCoords, bind, eval, ret, call, getattr.
  rewrite Hlc, Hlk, !checkCoordList_returns.
  destruct (pairwise_same coord_ne lc cornersList),
           (pairwise_same coord_ne lk centresList); simpl;
    rewrite ?(proj1 Hsuccess); simpl; rewrite ?(proj1 Hsuccess);
    eexists _, _; split; reflexivity.
Qed.

Lemma Total_remove_loop o (v : pyval) :
  Total o (for_each ["ramp1.img"; "ramp2.img"]
             (fun filename => call env (os_remove filename)) ;;
           ret v)%prog (fun _ _ => True).
Proof.
  intros s _. cbv [bind for_each call ret].
  rewrite !(proj1 Hsuccess). eexists _, _. split; [reflexivity|exact I].
Qed.

Lemma has_lists_reset o :
  has_lists (<["centresList" := []]> (<["cornersList" := []]> o)).
Proof.
  split.
  - rewrite lookup_insert_ne by discriminate. rewrite lookup_insert_eq. eauto.
  - rewrite lookup_insert_eq. eauto.
Qed.

Local Ltac total_step :=
  eapply Total_bind;
  [ first [ apply Total_call | apply Total_set_infiles
          | apply Total_set_outfiles | apply Total_set_controls
          | apply Total_set_otherargs | apply Total_get_otherargs
          | apply Total_get_infiles | apply Total_get_controls
          | apply Total_apply; apply has_lists_reset
          | apply Total_checkCoords; assumption ]
  | let Hpost := fresh "Hpost" in
    intros ? ? Hpost; cbv beta in Hpost;
    lazymatch type of Hpost with
    | _ = _ /\ _ = _ => destruct Hpost as [-> ->]
    | _ = _ => revert Hpost; intros ->
    | _ => idtac
    end ].

(** On the success path [run] returns, and returns [False]. *)
Lemma run_returns_False s :
  exists s', run env s = (Returned (PyBool false), s').
Proof.
  assert (Total (otherargs s) (run env) (fun _ _ => True)) as Hrun.
  { unfold run. cbv zeta. repeat total_step. apply Total_remove_loop. }
  destruct (Hrun s eq_refl) as (a & s' & E & _). exists s'.
  rewrite E. f_equal. f_equal. eapply run_never_True, E.
Qed.

End SuccessPath.

(** ** The sample runs *)

Lemma sample_block_readable {num : Type} `{Number num} pix (c k : num * num) :
  readable (sample_block pix c k).1.
Proof. split; eexists; reflexivity. Qed.

Lemma sample_blocks_readable {num : Type} `{Number num} pix
    (cs ks : list (num * num)) :
  Forall (fun b => readable b.1) (zip_with (sample_block pix) cs ks).
Proof.
  revert ks. induction cs as [|c cs IH]; intros [|k ks]; simpl;
    constructor; [apply sample_block_readable|apply IH].
Qed.

Lemma sample_env_success_path : success_path sample_env.
Proof.
  split; [reflexivity|]. intros tr ev. unfold sample_env. simpl.
  destruct ev as [| |infiles outfiles controls| |]; try apply Forall_nil_2.
  destruct (infiles !! "img") as [[f|fs]|]; [| |apply Forall_nil_2];
    try destruct (overlap controls);
    repeat (first [ apply Forall_nil_2
                  | apply Forall_cons_2; [apply sample_block_readable|] ]).
Qed.

(** C1 fails on the code: with an engine that reports exactly the
    expected coordinates, all three checks pass, no mismatch is
    reported, and [run] still returns [False]. *)
Lemma run_False_although_all_checks_pass :
  (@run float _ sample_defaults sample_env initial).1
    = Returned (PyBool false)
  /\ reports (trace (@run float _ sample_defaults sample_env initial).2) = [].
Proof. vm_compute. split; reflexivity. Qed.

(** The sample engine is on the success path. *)
Lemma run_returns_False_witness :
  success_path sample_env
  /\ exists s', @run float _ sample_defaults sample_env initial
                = (Returned (PyBool false), s').
Proof.
  split; [exact sample_env_success_path|].
  exact (run_returns_False sample_env sample_env_success_path initial).
Defined.

(** The run with the sample engine: eight calls, the last two the
    removals. *)
Lemma run_creates_then_removes_witness :
  exists new,
    trace (@run float _ sample_defaults sample_env initial).2
      = trace initial ++ new
    /\ cleanup not_remove (Returned (PyBool false)) new
    /\ length new = 8%nat.
Proof.
  destruct (@run_creates_then_removes float _ sample_defaults sample_env
              initial (Returned (PyBool false))
              (@run float _ sample_defaults sample_env initial).2)
    as (new & T & C & _).
  - vm_compute. reflexivity.
  - exists new. split; [exact T|]. split; [exact C|].
    apply (f_equal length) in T. rewrite length_app in T.
    simpl in T. rewrite <- T. vm_compute. reflexivity.
Defined.

(** One block seen, no corner expected and the right centre expected:
    the corner message alone is reported. *)
Lemma checkCoords_reports_witness :
  exists (okc okk : bool) (new : list (Event float * option exn)),
    checkCoordList coord_ne [(500000, 7000000)%float] [] = Returned okc
    /\ checkCoordList coord_ne [(500005, 6999995)%float]
         [(500005, 6999995)%float] = Returned okk
    /\ new = (if okc then []
              else [(corner_mismatch "1 file, overlap=0"
                       [(500000, 7000000)%float] [], None)])
             ++ (if okk then []
                 else [(centre_mismatch "1 file, overlap=0"
                          [(500005, 6999995)%float]
                          [(500005, 6999995)%float], None)]).
Proof.
  destruct (@checkCoords_reports float _ sample_env "1 file, overlap=0"
              sample_otherargs [] [(500005, 6999995)%float] initial
              [(500000, 7000000)%float] [(500005, 6999995)%float]
              PyNone
              (checkCoords sample_env "1 file, overlap=0" sample_otherargs
                 [] [(500005, 6999995)%float] initial).2)
    as (okc & okk & new & Hc & Hk & _ & Hnew & _).
  - reflexivity.
  - reflexivity.
  - vm_compute. reflexivity.
  - exists okc, okk, new. repeat split; assumption.
Defined.

(** One invocation, and the nine of the first [apply], from empty
    lists. *)
Lemma getCoords_appends_one_witness :
  (exists o',
     getCoords (sample_block 10 (500000, 7000000)%float
                  (500005, 6999995)%float).1 ∅ ∅ empty_otherargs
       = (Returned PyNone, o')
     /\ o' !! "cornersList" = Some ([] ++ [(500000, 7000000)%float])
     /\ o' !! "centresList" = Some ([] ++ [(500005, 6999995)%float]))
  /\ (exists o' cs ks,
        for_each sample_blocks (fun b => getCoords b.1 b.2 ∅) empty_otherargs
          = (Returned tt, o')
        /\ o' !! "cornersList" = Some cs /\ o' !! "centresList" = Some ks
        /\ length cs = 9%nat /\ length ks = 9%nat).
Proof.
  destruct (@getCoords_appends_one float
              (sample_block 10 (500000, 7000000)%float
                 (500005, 6999995)%float).1 ∅ ∅ empty_otherargs
              [] [] (500000, 7000000)%float (500005, 6999995)%float
              sample_blocks)
    as [(o' & Hrun & Hc & Hk & _) Hall].
  - reflexivity.
  - reflexivity.
  - vm_compute. reflexivity.
  - reflexivity.
  - apply sample_env_success_path.
  - split.
    + exists o'. repeat split; assumption.
    + destruct (Hall eq_refl eq_refl) as (o2 & cs & ks & Hfor & Hcs & Hks & Lc & Lk).
      exists o2, cs, ks. repeat split; assumption.
Defined.

(** A callback that raises between its two appends leaves the corner
    in [cornersList] and [centresList] as it was; the exception then
    ends [applier.apply] and [run]. *)
Lemma getCoords_raises_after_corner :
  exists o',
    getCoords broken_block ∅ ∅ empty_otherargs
      = (Raised (Failure "getBlockCoordArrays"), o')
    /\ o' !! "cornersList" = Some [(500000, 7000000)%float]
    /\ o' !! "centresList" = Some [].
Proof. eexists. repeat split. Qed.

(** The list to append to is looked up before the tuple to append is
    built: without a [centresList] the callback raises
    [AttributeError], also on a block whose arrays have no first cell;
    with one, it raises [IndexError] there. *)
Lemma getCoords_looks_up_list_first :
  (getCoords empty_block ∅ ∅ corners_only).1 = Raised AttributeError
  /\ (getCoords empty_block ∅ ∅ empty_otherargs).1 = Raised IndexError.
Proof. split; reflexivity. Qed.

(** With an engine that reports a block one pixel off, every check
    fails, all six messages are reported, and [run] returns [False]. *)
Lemma run_False_when_checks_fail :
  (@run float _ sample_defaults shifted_env initial).1
    = Returned (PyBool false)
  /\ length (reports
               (trace (@run float _ sample_defaults shifted_env initial).2))
     = 6%nat.
Proof. vm_compute. split; reflexivity. Qed.

(** ** What a returning run has done *)

Lemma bind_Returned {S A B} (m : prog S A) (k : A -> prog S B) s b s' :
  bind m k s = (Returned b, s') ->
  exists a s1, m s = (Returned a, s1) /\ k a s1 = (Returned b, s').
Proof. unfold bind. destruct (m s) as [[a|e] s1]; [eauto|discriminate]. Qed.

Section CallbackInversion.
Context {num : Type} `{Number num}.
Implicit Types (o : gmap string (list (num * num))).

Lemma getCoords_Returned (info : ReaderInfo num) inputs outputs o v o' lc lk :
  o !! "cornersList" = Some lc -> o !! "centresList" = Some lk ->
  getCoords info inputs outputs o = (Returned v, o') ->
  exists c k,
    block_corner info = Returned c /\ block_centre info = Returned k
    /\ o' = <["centresList" := lk ++ [k]]> (<["cornersList" := lc ++ [c]]> o).
Proof.
  intros Hlc Hlk.
  unfold getCoords, block_corner, block_centre, bind, eval, attr_append,
    load_attr, getattr, ret.
  destruct (getPixCoord info 0 0) as [[x y]|]; [|discriminate].
  rewrite Hlc.
  destruct (getBlockCoordArrays info) as [[xs ys]|]; [|discriminate].
  rewrite lookup_insert_ne by discriminate. rewrite Hlk.
  destruct (item xs 0 0) as [x00|]; [|discriminate].
  destruct (item ys 0 0) as [y00|]; [|discriminate].
  intros [= <- <-]. eauto.
Qed.

Lemma corners_of_cons (b : ReaderInfo num * BlockAssociations num) bs c :
  block_corner b.1 = Returned c -> corners_of (b :: bs) = c :: corners_of bs.
Proof. intros Hc. unfold corners_of. simpl. rewrite Hc. reflexivity. Qed.

Lemma centres_of_cons (b : ReaderInfo num * BlockAssociations num) bs k :
  block_centre b.1 = Returned k -> centres_of (b :: bs) = k :: centres_of bs.
Proof. intros Hk. unfold centres_of. simpl. rewrite Hk. reflexivity. Qed.

(** When the callbacks over [bs] have all returned, every block was
    readable and the two lists have grown by the corners and the
    centres of the blocks, in the order visited. *)
Lemma callbacks_Returned (bs : list (ReaderInfo num * BlockAssociations num))
    o u o' lc lk :
  o !! "cornersList" = Some lc -> o !! "centresList" = Some lk ->
  for_each bs (fun b => getCoords b.1 b.2 ∅) o = (Returned u, o') ->
  Forall (fun b => readable b.1) bs
  /\ o' !! "cornersList" = Some (lc ++ corners_of bs)
  /\ o' !! "centresList" = Some (lk ++ centres_of bs)
  /\ (forall name, name <> "cornersList" -> name <> "centresList" ->
        o' !! name = o !! name).
Proof.
  revert o lc lk. induction bs as [|b bs IH]; intros o lc lk Hlc Hlk Hrun.
  - injection Hrun as _ <-. rewrite !app_nil_r. repeat split; auto.
  - simpl in Hrun. apply bind_Returned in Hrun as (v & o1 & H1 & Hrun).
    destruct (getCoords_Returned _ _ _ _ _ _ _ _ Hlc Hlk H1)
      as (c & k & Hc & Hk & ->).
    assert (Hlc' : (<["centresList" := lk ++ [k]]>
                      (<["cornersList" := lc ++ [c]]> o)) !! "cornersList"
                   = Some (lc ++ [c])).
    { rewrite lookup_insert_ne by discriminate. apply lookup_insert_eq. }
    assert (Hlk' : (<["centresList" := lk ++ [k]]>
                      (<["cornersList" := lc ++ [c]]> o)) !! "centresList"
                   = Some (lk ++ [k])).
    { apply lookup_insert_eq. }
    destruct (IH _ _ _ Hlc' Hlk' Hrun) as (Hbs & Hcs & Hks & Hother).
    rewrite (corners_of_cons _ _ _ Hc), (centres_of_cons _ _ _ Hk).
    rewrite <- !app_assoc in Hcs, Hks. repeat split; eauto.
    + constructor; [split; eauto|exact Hbs].
    + intros name N1 N2. rewrite Hother by assumption.
      rewrite !lookup_insert_ne by congruence. reflexivity.
Qed.

End CallbackInversion.

Section RunInversion.
Context {num : Type} `{Number num} `{Defaults} (env : Env num).
Implicit Types (s : State num) (o : gmap string (list (num * num))).

Lemma call_Returned ev s v s' :
  call env ev s = (Returned v, s') -> s' = log (ev, None) s.
Proof.
  unfold call. destruct (raises env (trace s) ev); [discriminate|].
  intros [= _ <-]. reflexivity.
Qed.

Lemma apply_Returned s v s' lc lk :
  otherargs s !! "cornersList" = Some lc ->
  otherargs s !! "centresList" = Some lk ->
  apply_ env getCoords s = (Returned v, s') ->
  let ev := applier_apply (infiles s) (outfiles s) (controls s) in
  let bs := blocks env (trace s) ev in
  exists o',
    s' = log (ev, None) (put_otherargs o' s)
    /\ Forall (fun b => readable b.1) bs
    /\ o' !! "cornersList" = Some (lc ++ corners_of bs)
    /\ o' !! "centresList" = Some (lk ++ centres_of bs).
Proof.
  intros Hlc Hlk. unfold apply_.
  destruct (for_each _ _ _) as [[u|e] o'] eqn:E; [|discriminate].
  intros Hcall. apply call_Returned in Hcall.
  destruct (callbacks_Returned _ _ _ _ _ _ Hlc Hlk E) as (Hbs & Hcs & Hks & _).
  exists o'. repeat split; assumption.
Qed.

Lemma checkCoords_Returned testConditionStr o cornersList centresList
    s v s' lc lk :
  o !! "cornersList" = Some lc -> o !! "centresList" = Some lk ->
  checkCoords env testConditionStr o cornersList centresList s
    = (Returned v, s') ->
  s' = with_trace
         (trace s ++ mismatches testConditionStr lc lk cornersList centresList)
         s.
Proof.
  intros Hlc Hlk. destruct s as [tr fi fo oa ct].
  unfold checkCoords, bind, eval, ret, call, getattr.
  rewrite Hlc, Hlk, !checkCoordList_returns.
  unfold mismatches, corner_mismatch, centre_mismatch, with_trace, log.
  destruct (pairwise_same coord_ne lc cornersList),
           (pairwise_same coord_ne lk centresList); simpl;
    repeat (match goal with
            | |- context [raises env ?tr ?ev] =>
                destruct (raises env tr ev) eqn:?; simpl
            end);
    intros [= _ <-]; rewrite <- ?app_assoc, ?app_nil_r; reflexivity.
Qed.

End RunInversion.

Section RunTrace.
Context {num : Type} `{Number num} `{Defaults} (env : Env num).
Implicit Types (s : State num) (o : gmap string (list (num * num))).

Local Ltac simpl_state H :=
  cbn [trace infiles outfiles otherargs controls log put_otherargs
       with_trace] in H.

Local Ltac next H :=
  let a := fresh "a" in
  let s1 := fresh "s" in
  let H1 := fresh "Hstep" in
  apply bind_Returned in H as (a & s1 & H1 & H);
  first
    [ apply call_Returned in H1; subst s1
    | injection H1 as <- <- ];
  simpl_state H.

Local Ltac apply_step H o' Hb Hc Hk :=
  let a := fresh "a" in
  let s1 := fresh "s" in
  let H1 := fresh "Hstep" in
  apply bind_Returned in H as (a & s1 & H1 & H);
  eapply apply_Returned in H1;
  [ cbv zeta in H1; destruct H1 as (o' & -> & Hb & Hc & Hk);
    simpl_state H; simpl_state Hb; simpl_state Hc; simpl_state Hk;
    rewrite app_nil_l in Hc, Hk
  | cbn [otherargs put_otherargs];
    rewrite lookup_insert_ne by discriminate; apply lookup_insert_eq
  | cbn [otherargs put_otherargs]; apply lookup_insert_eq ].

Local Ltac check_step H Hc Hk :=
  let a := fresh "ok" in
  let s1 := fresh "s" in
  let H1 := fresh "Hstep" in
  apply bind_Returned in H as (a & s1 & H1 & H);
  apply (checkCoords_Returned _ _ _ _ _ _ _ _ _ _ Hc Hk) in H1; subst s1;
  simpl_state H.

(** What a run that returns has done: its calls, the blocks it was
    given, and the objects it leaves. *)
Lemma run_Returned s v s' :
  run env s = (Returned v, s') ->
  trace s' = trace s ++ returning_trace env (trace s)
  /\ v = PyBool false
  /\ Forall (fun b => readable b.1) (blocks1 env (trace s))
  /\ Forall (fun b => readable b.1) (blocks2 env (trace s))
  /\ Forall (fun b => readable b.1) (blocks3 env (trace s))
  /\ otherargs s' !! "cornersList" = Some (corners_of (blocks3 env (trace s)))
  /\ otherargs s' !! "centresList" = Some (centres_of (blocks3 env (trace s)))
  /\ infiles s' = two_files /\ outfiles s' = ∅
  /\ controls s' = setOverlap OLAP new_controls.
Proof.
  destruct s as [tr fi fo oa ct]. intros Hrun.
  assert (Hv : v = PyBool false) by (eapply run_never_True, Hrun).
  unfold run in Hrun.
  cbv zeta in Hrun. simpl_state Hrun.
  do 13 next Hrun.
  apply_step Hrun o1 Hb1 Hc1 Hk1.
  next Hrun. check_step Hrun Hc1 Hk1.
  do 6 next Hrun.
  apply_step Hrun o2 Hb2 Hc2 Hk2.
  next Hrun. check_step Hrun Hc2 Hk2.
  do 8 next Hrun.
  apply_step Hrun o3 Hb3 Hc3 Hk3.
  next Hrun. check_step Hrun Hc3 Hk3.
  apply bind_Returned in Hrun as (u & s1 & Hloop & Hrun).
  cbn [for_each] in Hloop. do 2 next Hloop.
  injection Hloop as _ <-. injection Hrun as _ <-.
  cbn [trace infiles outfiles otherargs controls log put_otherargs with_trace].
  unfold returning_trace, trace3, blocks3, trace2, blocks2, trace1, blocks1,
    created, removed, first_apply, second_apply, third_apply, two_files,
    one_file.
  rewrite <- !app_assoc in *.
  cbn [app] in *.
  repeat split; try assumption; try reflexivity.
Qed.
End RunTrace.

(** ** What the reports of a run tell *)

Section ReportFacts.
Context {num : Type} `{Number num} `{Defaults} (env : Env num).
Implicit Types (s : State num) (tr : list (Event num * option exn)).

Lemma pairwise_same_coords (list1 list2 : list (num * num)) :
  pairwise_same coord_ne list1 list2 = true <-> same_coords list1 list2.
Proof.
  rewrite pairwise_same_Forall2, Forall2_same_length_lookup.
  unfold same_coords. split; intros [Hlen Hall]; (split; [exact Hlen|]);
    intros i a b Ha Hb; apply coord_ne_false; eauto.
Qed.

Lemma reports_app tr1 tr2 : reports (tr1 ++ tr2) = reports tr1 ++ reports tr2.
Proof. apply omap_app. Qed.

Lemma applies_app tr1 tr2 : applies (tr1 ++ tr2) = applies tr1 ++ applies tr2.
Proof. apply omap_app. Qed.

Lemma applies_cons_apply i o c e tr :
  applies ((applier_apply i o c, e) :: tr) = (i, o, c) :: applies tr.
Proof. reflexivity. Qed.

Lemma applies_mismatches c cs ks eC eK : applies (mismatches c cs ks eC eK) = [].
Proof.
  unfold mismatches.
  destruct (pairwise_same coord_ne cs eC), (pairwise_same coord_ne ks eK);
    reflexivity.
Qed.

Lemma reports_mismatches_nil c cs ks eC eK :
  reports (mismatches c cs ks eC eK) = []
  <-> same_coords cs eC /\ same_coords ks eK.
Proof.
  rewrite <- !pairwise_same_coords. unfold mismatches.
  destruct (pairwise_same coord_ne cs eC), (pairwise_same coord_ne ks eK);
    simpl; split; try tauto; try discriminate; intros [? ?]; discriminate.
Qed.

Lemma mismatches_nil c cs ks eC eK :
  same_coords cs eC -> same_coords ks eK -> mismatches c cs ks eC eK = [].
Proof.
  rewrite <- !pairwise_same_coords. unfold mismatches. intros -> ->.
  reflexivity.
Qed.

(** The reports of a returning run are those of its three checks. *)
Lemma reports_returning_trace tr :
  reports (returning_trace env tr)
  = reports (mismatches "1 file, overlap=0"
               (corners_of (blocks1 env tr)) (centres_of (blocks1 env tr))
               CORNERS_1FILE_NOOVERLAP CENTRES_1FILE_NOOVERLAP)
    ++ reports (mismatches "1 file, overlap=2"
                  (corners_of (blocks2 env tr)) (centres_of (blocks2 env tr))
                  CORNERS_1FILE_OVERLAP2 CENTRES_1FILE_OVERLAP2)
    ++ reports (mismatches "2 files, overlap=2"
                  (corners_of (blocks3 env tr)) (centres_of (blocks3 env tr))
                  CORNERS_2FILE_OVERLAP2 CENTRES_2FILE_OVERLAP2).
Proof.
  unfold returning_trace, trace1, trace2, trace3.
  rewrite !reports_app.
  change (reports removed) with (@nil (pystr num)).
  rewrite app_nil_r. reflexivity.
Qed.

End ReportFacts.

Section RunExtras.
Context {num : Type} `{Number num} `{Defaults} (env : Env num).
Implicit Types (s : State num) (tr : list (Event num * option exn)).

Lemma trace1_quiet tr :
  same_coords (corners_of (blocks1 env tr)) CORNERS_1FILE_NOOVERLAP ->
  same_coords (centres_of (blocks1 env tr)) CENTRES_1FILE_NOOVERLAP ->
  trace1 env tr = [(first_apply, None)].
Proof. intros Hc Hk. unfold trace1. rewrite mismatches_nil by assumption. reflexivity. Qed.

Lemma trace2_quiet tr :
  same_coords (corners_of (blocks2 env tr)) CORNERS_1FILE_OVERLAP2 ->
  same_coords (centres_of (blocks2 env tr)) CENTRES_1FILE_OVERLAP2 ->
  trace2 env tr = [(second_apply, None)].
Proof. intros Hc Hk. unfold trace2. rewrite mismatches_nil by assumption. reflexivity. Qed.

(** The calls of a run that returns are determined by the blocks the
    engine visits: the three creation calls, then for each scenario the
    [apply] call and the mismatch reports of its check, then the two
    removals, all returning; and every block visited was readable. *)
Theorem run_trace_closed_form s v s' :
  run env s = (Returned v, s') ->
  trace s' = trace s ++ returning_trace env (trace s)
  /\ Forall (fun b => readable b.1) (blocks1 env (trace s))
  /\ Forall (fun b => readable b.1) (blocks2 env (trace s))
  /\ Forall (fun b => readable b.1) (blocks3 env (trace s)).
Proof.
  intros Hrun.
  destruct (run_Returned env s v s' Hrun) as (T & _ & B1 & B2 & B3 & _).
  repeat split; assumption.
Qed.

(** A run that returns leaves in [otherargs] the corners and centres of
    the blocks of the third [apply] alone, the lists being emptied
    before each scenario; [infiles.img] is the list of the two files,
    [outfiles] is empty and the overlap is 2. *)
Theorem run_leaves_last_scenario s v s' :
  run env s = (Returned v, s') ->
  otherargs s' !! "cornersList" = Some (corners_of (blocks3 env (trace s)))
  /\ otherargs s' !! "centresList" = Some (centres_of (blocks3 env (trace s)))
  /\ infiles s' !! "img" = Some (FileList ["ramp1.img"; "ramp2.img"])
  /\ outfiles s' = ∅
  /\ overlap (controls s') = Some 2.
Proof.
  intros Hrun.
  destruct (run_Returned env s v s' Hrun)
    as (_ & _ & _ & _ & _ & Hc & Hk & Hi & Ho & Hct).
  rewrite Hi, Ho, Hct. repeat split; try assumption; reflexivity.
Qed.

(** A run that returns has called [applier.apply] exactly three times:
    on [ramp1.img] with no overlap set, on [ramp1.img] with overlap 2,
    and on the list of both files with overlap 2, each time with no
    output files. *)
Theorem run_applies_three_times s v s' :
  run env s = (Returned v, s') ->
  exists new,
    trace s' = trace s ++ new
    /\ applies new
       = [(<["img" := OneFile "ramp1.img"]> ∅, ∅, {| overlap := None |});
          (<["img" := OneFile "ramp1.img"]> ∅, ∅, {| overlap := Some 2 |});
          (<["img" := FileList ["ramp1.img"; "ramp2.img"]]> ∅, ∅,
           {| overlap := Some 2 |})].
Proof.
  intros Hrun. destruct (run_Returned env s v s' Hrun) as (T & _).
  exists (returning_trace env (trace s)). split; [exact T|].
  unfold returning_trace, trace1, trace2, trace3.
  unfold first_apply, second_apply, third_apply, two_files, one_file.
  rewrite !applies_app, !applies_cons_apply, !applies_mismatches.
  rewrite insert_insert_eq. reflexivity.
Qed.

(** A run that returns has reported nothing exactly when, in each of
    the three scenarios, the corners and the centres of the blocks the
    engine visited are the expected ones (same length, equal by [==]
    index by index). *)
Theorem run_reports_nothing_iff s v s' :
  run env s = (Returned v, s') ->
  let bs1 := blocks env (trace s ++ created) first_apply in
  let bs2 := blocks env (trace s ++ created ++ [(first_apply, None)])
               second_apply in
  let bs3 := blocks env (trace s ++ created
                           ++ [(first_apply, None); (second_apply, None)])
               third_apply in
  exists new,
    trace s' = trace s ++ new
    /\ (reports new = [] <->
        same_coords (corners_of bs1) CORNERS_1FILE_NOOVERLAP
        /\ same_coords (centres_of bs1) CENTRES_1FILE_NOOVERLAP
        /\ same_coords (corners_of bs2) CORNERS_1FILE_OVERLAP2
        /\ same_coords (centres_of bs2) CENTRES_1FILE_OVERLAP2
        /\ same_coords (corners_of bs3) CORNERS_2FILE_OVERLAP2
        /\ same_coords (centres_of bs3) CENTRES_2FILE_OVERLAP2).
Proof.
  intros Hrun bs1 bs2 bs3.
  destruct (run_Returned env s v s' Hrun) as (T & _).
  exists (returning_trace env (trace s)). split; [exact T|].
  rewrite reports_returning_trace. split.
  - intros Hnil. apply app_eq_nil in Hnil as [H1 Hnil].
    apply app_eq_nil in Hnil as [H2 H3].
    apply reports_mismatches_nil in H1 as [C1 K1].
    pose proof (trace1_quiet _ C1 K1) as T1.
    apply reports_mismatches_nil in H2 as [C2 K2].
    pose proof (trace2_quiet _ C2 K2) as T2.
    apply reports_mismatches_nil in H3 as [C3 K3].
    unfold blocks3 in C3, K3. rewrite T1, T2 in C3, K3.
    unfold blocks2 in C2, K2. rewrite T1 in C2, K2.
    exact (conj C1 (conj K1 (conj C2 (conj K2 (conj C3 K3))))).
  - intros (C1 & K1 & C2 & K2 & C3 & K3).
    pose proof (trace1_quiet (trace s) C1 K1) as T1.
    assert (blocks2 env (trace s) = bs2) as E2
      by (unfold blocks2; rewrite T1; reflexivity).
    rewrite <- E2 in C2, K2.
    pose proof (trace2_quiet (trace s) C2 K2) as T2.
    assert (blocks3 env (trace s) = bs3) as E3
      by (unfold blocks3; rewrite T1, T2; reflexivity).
    rewrite <- E3 in C3, K3.
    rewrite !(proj2 (reports_mismatches_nil _ _ _ _ _)) by (split; assumption).
    reflexivity.
Qed.

(** Whatever [run] returns is [False], whatever the engine visited and
    whatever the checks found. *)
Theorem run_result_is_False s v s' :
  run env s = (Returned v, s') -> v = PyBool false /\ truthy v = false.
Proof.
  intros Hrun. assert (v = PyBool false) as -> by (eapply run_never_True, Hrun).
  split; reflexivity.
Qed.

End RunExtras.

(** ** The callback and the check, whatever the outcome *)

Section OutcomeFacts.
Context {num : Type} `{Number num}.
Implicit Types (o : gmap string (list (num * num))).

(** An invocation of [getCoords] on an accumulator with its two lists
    ends in one of three ways, by what the block lets it read: nothing
    changed when the corner cannot be had; the corner appended and the
    centres untouched when the centre cannot be had; both appended and
    [None] returned otherwise.  No other attribute is ever changed. *)
Theorem getCoords_outcomes (info : ReaderInfo num) inputs outputs o lc lk r o' :
  o !! "cornersList" = Some lc -> o !! "centresList" = Some lk ->
  getCoords info inputs outputs o = (r, o') ->
  (forall name, name <> "cornersList" -> name <> "centresList" ->
     o' !! name = o !! name)
  /\ match block_corner info, block_centre info with
     | Raised e, _ => r = Raised e /\ o' = o
     | Returned c, Raised e =>
         r = Raised e
         /\ o' !! "cornersList" = Some (lc ++ [c])
         /\ o' !! "centresList" = Some lk
     | Returned c, Returned k =>
         r = Returned PyNone
         /\ o' !! "cornersList" = Some (lc ++ [c])
         /\ o' !! "centresList" = Some (lk ++ [k])
     end.
Proof.
  intros Hlc Hlk.
  unfold getCoords, block_corner, block_centre, bind, eval, attr_append,
    load_attr, getattr, ret.
  destruct (getPixCoord info 0 0) as [[x y]|e].
  2: { intros [= <- <-]. split; [reflexivity|]. split; reflexivity. }
  rewrite Hlc.
  assert (forall name, name <> "cornersList" -> name <> "centresList" ->
            (<["cornersList" := lc ++ [(x, y)]]> o) !! name = o !! name) as F1.
  { intros name N1 N2. rewrite lookup_insert_ne by congruence. reflexivity. }
  assert ((<["cornersList" := lc ++ [(x, y)]]> o) !! "cornersList"
          = Some (lc ++ [(x, y)])) as C1 by apply lookup_insert_eq.
  assert ((<["cornersList" := lc ++ [(x, y)]]> o) !! "centresList" = Some lk)
    as K1 by (rewrite lookup_insert_ne by discriminate; exact Hlk).
  destruct (getBlockCoordArrays info) as [[xs ys]|e];
    [|intros [= <- <-]; repeat split; assumption].
  rewrite K1.
  destruct (item xs 0 0) as [x00|e];
    [|intros [= <- <-]; repeat split; assumption].
  destruct (item ys 0 0) as [y00|e];
    [|intros [= <- <-]; repeat split; assumption].
  intros [= <- <-]. split; [|split; [reflexivity|split]].
  - intros name N1 N2. rewrite lookup_insert_ne by congruence. auto.
  - rewrite lookup_insert_ne by discriminate. exact C1.
  - apply lookup_insert_eq.
Qed.

Lemma corners_of_length (bs : list (ReaderInfo num * BlockAssociations num)) :
  Forall (fun b => readable b.1) bs ->
  length (corners_of bs) = length bs /\ length (centres_of bs) = length bs.
Proof.
  induction 1 as [|b bs [[c Hc] [k Hk]] _ [IHc IHk]]; [split; reflexivity|].
  rewrite (corners_of_cons _ _ _ Hc), (centres_of_cons _ _ _ Hk). simpl.
  rewrite IHc, IHk. split; reflexivity.
Qed.

(** The callback run over the blocks of an [apply], on an accumulator
    with its two lists: the run gets through exactly when every block
    is readable, and then the lists have grown by the corners and the
    centres of the blocks, one each per block, in the order visited. *)
Theorem callbacks_return_iff (bs : list (ReaderInfo num * BlockAssociations num))
    o lc lk :
  o !! "cornersList" = Some lc -> o !! "centresList" = Some lk ->
  ((exists o', for_each bs (fun b => getCoords b.1 b.2 ∅) o = (Returned tt, o'))
   <-> Forall (fun b => readable b.1) bs)
  /\ (forall o',
        for_each bs (fun b => getCoords b.1 b.2 ∅) o = (Returned tt, o') ->
        o' !! "cornersList" = Some (lc ++ corners_of bs)
        /\ o' !! "centresList" = Some (lk ++ centres_of bs)
        /\ length (corners_of bs) = length bs
        /\ length (centres_of bs) = length bs).
Proof.
  intros Hlc Hlk. split; [split|].
  - intros [o' Hrun].
    apply (callbacks_Returned _ _ _ _ _ _ Hlc Hlk Hrun).
  - intros Hbs.
    destruct (callbacks_append bs o lc lk Hbs Hlc Hlk) as (o' & _ & _ & Hrun & _).
    exists o'. exact Hrun.
  - intros o' Hrun.
    destruct (callbacks_Returned _ _ _ _ _ _ Hlc Hlk Hrun) as (Hbs & Hc & Hk & _).
    destruct (corners_of_length bs Hbs) as [Lc Lk].
    repeat split; assumption.
Qed.

End OutcomeFacts.

Section CheckOutcomeFacts.
Context {num : Type} `{Number num} (env : Env num).
Implicit Types (o : gmap string (list (num * num))) (s : State num).

(** Whatever the outcome, [checkCoords] changes none of the objects: it
    only adds to the trace at most two calls, each a [report] under the
    test's name whose message starts with the test condition. *)
Theorem checkCoords_only_reports testConditionStr o cornersList centresList
    s r s' :
  checkCoords env testConditionStr o cornersList centresList s = (r, s') ->
  infiles s' = infiles s /\ outfiles s' = outfiles s
  /\ otherargs s' = otherargs s /\ controls s' = controls s
  /\ exists new,
       trace s' = trace s ++ new
       /\ (length new <= 2)%nat
       /\ Forall (fun en => exists m, en.1 = report TESTNAME m
                                      /\ condition m = testConditionStr) new.
Proof.
  destruct s as [tr fi fo oa ct].
  unfold checkCoords, bind, eval, ret, call, getattr, log.
  rewrite ?checkCoordList_returns.
  destruct (o !! "cornersList") as [lc|];
    [|intros [= <- <-]; repeat split; exists []; rewrite app_nil_r;
      repeat split; [simpl; lia|constructor]].
  rewrite !checkCoordList_returns.
  destruct (o !! "centresList") as [lk|];
    rewrite ?checkCoordList_returns;
    destruct (pairwise_same coord_ne lc cornersList);
    try destruct (pairwise_same coord_ne lk centresList); simpl;
    repeat (match goal with
            | |- context [raises env ?t ?ev] =>
                destruct (raises env t ev) eqn:?; simpl
            end);
    intros [= <- <-]; simpl; repeat split;
    rewrite <- ?app_assoc; eexists;
    (split; [first [reflexivity | symmetry; apply app_nil_r]|]);
    (split; [simpl; lia|]);
    repeat constructor; eexists; split; reflexivity.
Qed.

(** When the corners differ and the report of the mismatch raises,
    [checkCoords] ends there with that exception: the centres are not
    looked at, let alone reported. *)
Theorem checkCoords_stops_at_raising_report testConditionStr o cornersList
    centresList s lc e :
  o !! "cornersList" = Some lc ->
  ~ same_coords lc cornersList ->
  raises env (trace s) (corner_mismatch testConditionStr lc cornersList)
    = Some e ->
  checkCoords env testConditionStr o cornersList centresList s
    = (Raised e,
       log (corner_mismatch testConditionStr lc cornersList, Some e) s).
Proof.
  intros Hlc Hne He.
  assert (pairwise_same coord_ne lc cornersList = false) as Hp.
  { apply not_true_is_false. intros Hp. apply Hne.
    rewrite pairwise_same_Forall2, Forall2_same_length_lookup in Hp.
    destruct Hp as [Hlen Hall]. split; [exact Hlen|].
    intros i a b Ha Hb. apply coord_ne_false. eauto. }
  unfold checkCoords, bind, eval, ret, call, getattr.
  rewrite Hlc, checkCoordList_returns, Hp. simpl.
  unfold corner_mismatch in He. rewrite He. reflexivity.
Qed.

(** An accumulator without [cornersList] makes [checkCoords] raise
    [AttributeError] at once, with no call made; one whose corners are
    the expected ones but which has no [centresList] does the same. *)
Theorem checkCoords_missing_list testConditionStr o cornersList centresList s :
  o !! "cornersList" = None
  \/ (exists lc, o !! "cornersList" = Some lc /\ same_coords lc cornersList
                 /\ o !! "centresList" = None) ->
  checkCoords env testConditionStr o cornersList centresList s
    = (Raised AttributeError, s).
Proof.
  unfold checkCoords, bind, eval, ret, call, getattr.
  intros [Hc|(lc & Hc & Hs & Hk)]; rewrite Hc; [reflexivity|].
  rewrite checkCoordList_returns.
  assert (pairwise_same coord_ne lc cornersList = true) as ->.
  { rewrite pairwise_same_Forall2, Forall2_same_length_lookup.
    destruct Hs as [Hlen Hall]. split; [exact Hlen|].
    intros i a b Ha Hb. apply coord_ne_false. eauto. }
  simpl. rewrite Hk. reflexivity.
Qed.

End CheckOutcomeFacts.

(** ** Exceptions are not caught *)

Section Propagation.
Context {num : Type} `{Number num} `{Defaults} (env : Env num).
Implicit Types (s : State num).

Lemma Uncaught_silent {A} (m : prog (State num) A) :
  (forall s, trace (m s).2 = trace s) -> Uncaught m.
Proof.
  intros Hm s. exists []. rewrite Hm, app_nil_r.
  split; [reflexivity|]. left. constructor.
Qed.

Lemma Uncaught_call ev : Uncaught (call env ev).
Proof.
  intros s. exists [(ev, raises env (trace s) ev)]. split; [reflexivity|].
  unfold call. simpl. destruct (raises env (trace s) ev) as [e|].
  - right. exists [], ev, e. repeat split. constructor.
  - left. repeat constructor.
Qed.

Lemma Uncaught_bind {A B} (m : prog (State num) A) (k : A -> prog (State num) B) :
  Uncaught m -> (forall a, Uncaught (k a)) -> Uncaught (bind m k).
Proof.
  intros Hm Hk s. unfold bind. destruct (Hm s) as (n1 & T1 & O1).
  destruct (m s) as [[a|e] s1]; simpl in *.
  - destruct O1 as [N1|(pre & ev & e & _ & _ & Habs)]; [|discriminate].
    destruct (Hk a s1) as (n2 & T2 & O2). exists (n1 ++ n2).
    rewrite T2, T1, app_assoc. split; [reflexivity|].
    destruct O2 as [N2|(pre & ev & e & -> & Npre & Hr)].
    + left. apply Forall_app. split; assumption.
    + right. exists (n1 ++ pre), ev, e. rewrite app_assoc.
      repeat split; [|exact Hr]. apply Forall_app. split; assumption.
  - exists n1. split; [exact T1|].
    destruct O1 as [N1|(pre & ev & e' & -> & Npre & [= ->])]; [left; exact N1|].
    right. exists pre, ev, e'. repeat split. exact Npre.
Qed.

Lemma Uncaught_apply userFunc : Uncaught (apply_ env userFunc).
Proof.
  intros s. unfold apply_.
  destruct (for_each _ _ _) as [[[]|e] o].
  - destruct (Uncaught_call (applier_apply (infiles s) (outfiles s) (controls s))
                (put_otherargs o s)) as (new & T & O).
    exists new. split; [exact T|exact O].
  - eexists. split; [reflexivity|]. right.
    eexists [], _, e. repeat split. constructor.
Qed.

Local Ltac uncaught_steps :=
  repeat (first [ apply Uncaught_call
                | apply Uncaught_apply
                | apply Uncaught_silent; reflexivity
                | match goal with
                  | |- Uncaught (if ?b then _ else _) => destruct b
                  end
                | apply Uncaught_bind; [|intros ?] ]).

Lemma Uncaught_checkCoords testConditionStr o cornersList centresList :
  Uncaught (checkCoords env testConditionStr o cornersList centresList).
Proof. unfold checkCoords. uncaught_steps. Qed.

Lemma Uncaught_run : Uncaught (run env).
Proof.
  unfold run. cbv zeta.
  repeat (apply Uncaught_bind;
          [first [ apply Uncaught_checkCoords | solve [uncaught_steps] ]
          |intros ?]).
  apply Uncaught_silent. reflexivity.
Qed.

(** [run] catches nothing: when one of its calls raises, at once or, for
    [applier.apply], through the callback, that call is the last one
    made and [run] raises the same exception. *)
Theorem run_propagates_exceptions s r s' :
  run env s = (r, s') ->
  exists new,
    trace s' = trace s ++ new
    /\ forall ev e, (ev, Some e) ∈ new ->
         r = Raised e /\ last new = Some (ev, Some e).
Proof.
  intros Hrun. destruct (Uncaught_run s) as (new & T & O).
  rewrite Hrun in T, O. simpl in T, O. exists new. split; [exact T|].
  intros ev e Hin. destruct O as [N|(pre & ev' & e' & -> & Npre & Hr)].
  - rewrite Forall_forall in N. specialize (N _ Hin). discriminate N.
  - apply elem_of_app in Hin as [Hin|Hin].
    + rewrite Forall_forall in Npre. specialize (Npre _ Hin). discriminate Npre.
    + apply list_elem_of_singleton in Hin. injection Hin as -> ->.
      split; [exact Hr|]. apply last_snoc.
Qed.

(** No [applier.apply] call is made before [reportStart] and the
    creation of both files have returned, whether the run then returns
    or raises. *)
Theorem run_creates_before_apply s r s' :
  run env s = (r, s') ->
  exists new,
    trace s' = trace s ++ new
    /\ (applies new = [] \/ exists rest, new = created ++ rest).
Proof.
  intros Hrun. revert Hrun. unfold run. cbv zeta.
  unfold bind at 1. unfold call at 1.
  destruct (raises env (trace s) (reportStart TESTNAME)) as [e|].
  { intros [= <- <-]. eexists. split; [reflexivity|]. left. reflexivity. }
  unfold bind at 1. unfold call at 1. simpl trace.
  destruct (raises env _ (genRampImageFile "ramp1.img" None None)) as [e|].
  { intros [= <- <-]. simpl. rewrite <- app_assoc. eexists.
    split; [reflexivity|]. left. reflexivity. }
  unfold bind at 1. unfold call at 1. simpl trace.
  destruct (raises env _ (genRampImageFile "ramp2.img" _ _)) as [e|].
  { intros [= <- <-]. simpl. rewrite <- !app_assoc. eexists.
    split; [reflexivity|]. left. reflexivity. }
  match goal with
  | |- ?rest ?s3 = _ -> _ =>
      assert (Uncaught rest) as Hrest;
      [| destruct (Hrest s3) as (n & T & _); intros Hrun;
         rewrite Hrun in T; simpl in T ]
  end.
  { repeat (apply Uncaught_bind;
            [first [ apply Uncaught_checkCoords | solve [uncaught_steps] ]
            |intros ?]).
    apply Uncaught_silent. reflexivity. }
  rewrite <- !app_assoc in T. eexists. split; [exact T|].
  right. exists n. reflexivity.
Qed.

End Propagation.

(** ** The expected lists on binary64, one against the other *)

Lemma fl_inj a b : Z.abs a < 2 ^ 53 -> Z.abs b < 2 ^ 53 -> fl a = fl b -> a = b.
Proof.
  intros Ha Hb E. apply Z.eqb_eq. rewrite <- (fl_eqb a b Ha Hb), E.
  rewrite fl_eqb by assumption. apply Z.eqb_refl.
Qed.

(** The two sides are sums and differences of the constants, and
    differ in the integers. *)
Ltac floats_differ :=
  cbn [eqb add sub mul of_int half float_Number];
  rewrite !float_of_int_fl by lia;
  rewrite ?fl_half by lia;
  repeat first [rewrite fl_add by lia | rewrite fl_sub by lia];
  rewrite fl_eqb by lia; apply Z.eqb_neq; lia.

(** A sum or difference of the constants is no NaN. *)
Ltac no_nan_float :=
  cbn [eqb add sub mul of_int half float_Number];
  rewrite !float_of_int_fl by lia;
  rewrite ?fl_half by lia;
  repeat first [rewrite fl_add by lia | rewrite fl_sub by lia];
  rewrite fl_eqb by lia; apply Z.eqb_refl.

Lemma Forall_grid {A} (P : A -> Prop) (f : Z -> Z -> A) (n m : nat) :
  (forall i j, 0 <= i < Z.of_nat n -> 0 <= j < Z.of_nat m -> P (f i j)) ->
  Forall P (i ← range n; j ← range m; [f i j]).
Proof.
  intros HP. apply Forall_bind, Forall_forall. intros i Hi.
  apply Forall_bind, Forall_forall. intros j Hj.
  apply Forall_cons_2; [|apply Forall_nil_2].
  apply HP; apply elem_of_range; assumption.
Qed.

Lemma heads_differ (a b : float * float) l1 l2 :
  PrimFloat.eqb a.1 b.1 = false ->
  checkCoordList coord_ne (a :: l1) (b :: l2) = Returned false.
Proof.
  intros Hab. rewrite checkCoordList_returns. cbn [pairwise_same].
  unfold coord_ne at 1. cbn [eqb float_Number]. rewrite Hab. reflexivity.
Qed.

Section Binary64Lists.
Context (D : Defaults).

(** With the constants in range, the two-file expected lists are the
    top left 2-by-2 part of the one-file lists with overlap, moved to
    the second raster: 100 pixels right and 100 pixels down. *)
Theorem twofile_is_shifted_subgrid (i j : nat) :
  in_range -> (i < 2)%nat -> (j < 2)%nat ->
  @CORNERS_2FILE_OVERLAP2 float _ D !! (2 * i + j)%nat
    = to_second_image <$> @CORNERS_1FILE_OVERLAP2 float _ D !! (3 * i + j)%nat
  /\ @CENTRES_2FILE_OVERLAP2 float _ D !! (2 * i + j)%nat
    = to_second_image <$> @CENTRES_1FILE_OVERLAP2 float _ D !! (3 * i + j)%nat.
Proof.
  intros Hr Hi Hj. in_range_bounds Hr.
  destruct i as [|[|i]]; [| |lia]; (destruct j as [|[|j]]; [| |lia]);
    (split; cbn [lookup]; unfold to_second_image;
     apply (f_equal Some); apply f_equal2; cbn [fst snd];
     unfold HALFPIX, XSTART, YSTART, MARGIN, OLAP, OFFSET_2ND_IMAGE;
     exact_floats).
Qed.

(** With the constants in range, the two-file grid starts where [run]
    puts the second raster when it creates it: at every place
    [(x, y)] at which [run] creates [ramp2.img], the expected corner of
    block [(i, j)] is [(x + j*STEP, y - i*STEP)] moved outwards by the
    margin. *)
Theorem twofile_origin_is_second_image (x y : Z) (i j : nat) :
  in_range ->
  (genRampImageFile "ramp2.img" (Some x) (Some y), None) ∈ @created float D ->
  (i < 2)%nat -> (j < 2)%nat ->
  @CORNERS_2FILE_OVERLAP2 float _ D !! (2 * i + j)%nat
    = Some (outward ($x + $(Z.of_nat j * STEP), $y - $(Z.of_nat i * STEP))%num).
Proof.
  intros Hr Hin Hi Hj. in_range_bounds Hr.
  assert (x = DEFAULT_XLEFT + OFFSET_2ND_IMAGE
          /\ y = DEFAULT_YTOP - OFFSET_2ND_IMAGE) as [-> ->].
  { unfold created in Hin.
    repeat (apply elem_of_cons in Hin as [Hin|Hin]; [try discriminate Hin|]).
    - injection Hin as -> ->. split; reflexivity.
    - apply elem_of_nil in Hin. contradiction. }
  destruct i as [|[|i]]; [| |lia]; (destruct j as [|[|j]]; [| |lia]);
    (cbn [lookup]; unfold outward;
     apply (f_equal Some); apply f_equal2; cbn [fst snd];
     unfold HALFPIX, XSTART, YSTART, MARGIN, OLAP, OFFSET_2ND_IMAGE;
     exact_floats).
Qed.

(** With the constants in range and a pixel size that is not zero, the
    check tells the expected lists apart: corners without overlap are
    not accepted for corners with overlap, corners are not accepted
    for centres, and the one-file corners are not accepted for the
    two-file ones. *)
Theorem expected_lists_are_told_apart :
  in_range -> DEFAULT_PIXSIZE <> 0 ->
  checkCoordList coord_ne
    (@CORNERS_1FILE_NOOVERLAP float _ D) CORNERS_1FILE_OVERLAP2 = Returned false
  /\ checkCoordList coord_ne
       (@CORNERS_1FILE_NOOVERLAP float _ D) CENTRES_1FILE_NOOVERLAP
     = Returned false
  /\ checkCoordList coord_ne
       (@CORNERS_1FILE_OVERLAP2 float _ D) CORNERS_2FILE_OVERLAP2
     = Returned false.
Proof.
  intros Hr Hpix. in_range_bounds Hr. unfold PIX in *.
  split; [|split]; apply heads_differ; cbn [fst];
    unfold HALFPIX, XSTART, YSTART, MARGIN, OLAP, OFFSET_2ND_IMAGE, PIX;
    floats_differ.
Qed.

(** With the constants in range, the reading of the two-file lists from
    the union origin holds for no pixel size but zero. *)
Lemma twofile_union_origin_needs_zero_pixel_binary64 :
  in_range -> @twofile_grid_from_union_origin float _ D ->
  DEFAULT_PIXSIZE = 0.
Proof.
  intros Hr [G _]. in_range_bounds Hr. unfold PIX in *.
  specialize (G 0%nat 0%nat ltac:(lia) ltac:(lia)).
  change (@CORNERS_2FILE_OVERLAP2 float _ D !! (2 * 0 + 0)%nat)
    with (Some (XSTART + $OFFSET_2ND_IMAGE + $(0 * STEP) - $MARGIN,
                YSTART - $OFFSET_2ND_IMAGE - $(0 * STEP) + $MARGIN)%num) in G.
  injection G as G _. revert G.
  unfold XSTART, MARGIN, OLAP, OFFSET_2ND_IMAGE, PIX.
  cbn [add sub mul of_int half float_Number Z.of_nat].
  rewrite !float_of_int_fl by lia.
  repeat first [rewrite fl_add by lia | rewrite fl_sub by lia].
  intros G. apply fl_inj in G; lia.
Qed.

(** With the constants in range no expected coordinate is a NaN. *)
Lemma in_range_no_nan : in_range -> @expected_no_nan float _ D.
Proof.
  intros Hr. in_range_bounds Hr.
  repeat split; apply Forall_grid; intros i j Hi Hj;
    unfold HALFPIX, XSTART, YSTART, MARGIN, OLAP, OFFSET_2ND_IMAGE;
    small_index i; small_index j; split; cbn [fst snd]; no_nan_float.
Qed.

End Binary64Lists.

(** ** The success path, and the engine that is right *)

Section SuccessPathExtras.
Context {num : Type} `{Number num} `{Defaults}.

(** On the success path [run] returns [False], after the calls of
    [returning_trace]. *)
Theorem run_on_success_path (env : Env num) s :
  success_path env ->
  exists s',
    run env s = (Returned (PyBool false), s')
    /\ trace s' = trace s ++ returning_trace env (trace s).
Proof.
  intros Hs. destruct (run_returns_False env Hs s) as [s' Hrun].
  exists s'. split; [exact Hrun|].
  apply (run_Returned env s _ s' Hrun).
Qed.

Lemma expected_block_readable (c k : num * num) :
  readable (expected_block c k).1.
Proof. split; eexists; reflexivity. Qed.

Lemma expected_env_success_path : success_path expected_env.
Proof.
  split; [reflexivity|]. intros tr ev. unfold expected_env. simpl.
  destruct ev as [| |infiles outfiles controls| |]; try apply Forall_nil_2.
  destruct (infiles !! "img") as [[f|fs]|]; [| |apply Forall_nil_2];
    try destruct (overlap controls);
    repeat (first [ apply Forall_nil_2
                  | apply Forall_cons_2; [apply expected_block_readable|] ]).
Qed.

Lemma same_coords_no_nan (l : list (num * num)) : no_nan l -> same_coords l l.
Proof.
  intros Hl. split; [reflexivity|]. intros i a b Ha Hb.
  rewrite Ha in Hb. injection Hb as <-.
  exact (proj1 (Forall_lookup _ l) Hl i a Ha).
Qed.

(** Whatever the numbers and the constants, when no expected coordinate
    is a NaN a run with the engine that is right returns [False]
    having reported nothing. *)
Theorem run_quiet_on_expected_engine s :
  expected_no_nan ->
  exists s',
    run expected_env s = (Returned (PyBool false), s')
    /\ trace s' = trace s ++ created
                   ++ [(first_apply, None); (second_apply, None);
                       (third_apply, None)] ++ removed
    /\ reports (trace s') = reports (trace s).
Proof.
  intros (N1 & N2 & N3 & N4 & N5 & N6).
  destruct (run_returns_False expected_env expected_env_success_path s)
    as [s' Hrun].
  exists s'. split; [exact Hrun|].
  destruct (run_Returned expected_env s _ s' Hrun) as (T & _).
  assert (T1 : trace1 expected_env (trace s) = [(first_apply, None)]).
  { apply trace1_quiet; apply same_coords_no_nan; assumption. }
  assert (T2 : trace2 expected_env (trace s) = [(second_apply, None)]).
  { apply trace2_quiet; apply same_coords_no_nan; assumption. }
  assert (T3 : trace3 expected_env (trace s) = [(third_apply, None)]).
  { unfold trace3. rewrite mismatches_nil; [reflexivity| |];
      apply same_coords_no_nan; assumption. }
  unfold returning_trace in T. rewrite T1, T2, T3 in T.
  split; [exact T|]. rewrite T, reports_app. simpl. apply app_nil_r.
Qed.

End SuccessPathExtras.

(** ** The properties above on the sample runs *)

(** The run with the sample engine: eight calls, none of them a report. *)
Lemma run_trace_closed_form_witness :
  trace (@run float float_Number sample_defaults sample_env initial).2
    = [] ++ @returning_trace float float_Number sample_defaults sample_env []
  /\ length (@returning_trace float float_Number sample_defaults sample_env []) = 8%nat.
Proof.
  split; [|vm_compute; reflexivity].
  exact (proj1 (@run_trace_closed_form float float_Number sample_defaults sample_env
                  initial (PyBool false)
                  (@run float float_Number sample_defaults sample_env initial).2
                  ltac:(vm_compute; reflexivity))).
Defined.

(** The run with the sample engine ends with the four two-file corners. *)
Lemma run_leaves_last_scenario_witness :
  otherargs (@run float float_Number sample_defaults sample_env initial).2 !! "cornersList"
    = Some (corners_of (@blocks3 float float_Number sample_defaults sample_env []))
  /\ length (corners_of (@blocks3 float float_Number sample_defaults sample_env [])) = 4%nat.
Proof.
  split; [|vm_compute; reflexivity].
  exact (proj1 (@run_leaves_last_scenario float float_Number sample_defaults sample_env
                  initial (PyBool false)
                  (@run float float_Number sample_defaults sample_env initial).2
                  ltac:(vm_compute; reflexivity))).
Defined.

(** The run with the engine that is one pixel off. *)
Lemma run_applies_three_times_witness :
  exists new,
    trace (@run float float_Number sample_defaults shifted_env initial).2 = [] ++ new
    /\ length (applies new) = 3%nat.
Proof.
  destruct (@run_applies_three_times float float_Number sample_defaults shifted_env
              initial (PyBool false)
              (@run float float_Number sample_defaults shifted_env initial).2
              ltac:(vm_compute; reflexivity)) as (new & T & A).
  exists new. split; [exact T|]. rewrite A. reflexivity.
Defined.

(** The run with the sample engine reports nothing. *)
Lemma run_reports_nothing_iff_witness :
  exists new,
    trace (@run float float_Number sample_defaults sample_env initial).2 = [] ++ new
    /\ reports new = [].
Proof.
  destruct (@run_reports_nothing_iff float float_Number sample_defaults sample_env
              initial (PyBool false)
              (@run float float_Number sample_defaults sample_env initial).2
              ltac:(vm_compute; reflexivity)) as (new & T & Hiff).
  exists new. split; [exact T|].
  apply (f_equal reports) in T. vm_compute in T. symmetry. exact T.
Defined.

(** The run with the engine that is one pixel off. *)
Lemma run_result_is_False_witness :
  PyBool false = PyBool false /\ truthy (PyBool false) = false.
Proof.
  exact (@run_result_is_False float float_Number sample_defaults shifted_env initial
           (PyBool false)
           (@run float float_Number sample_defaults shifted_env initial).2
           ltac:(vm_compute; reflexivity)).
Defined.

(** The sample engine is on the success path. *)
Lemma run_on_success_path_witness :
  exists s',
    @run float float_Number sample_defaults sample_env initial
      = (Returned (PyBool false), s')
    /\ trace s' = [] ++ @returning_trace float float_Number sample_defaults sample_env [].
Proof.
  exact (@run_on_success_path float float_Number sample_defaults sample_env initial
           sample_env_success_path).
Defined.

(** A block without coordinate arrays: the corner is appended, the centres are not. *)
Lemma getCoords_outcomes_witness :
  getCoords broken_block ∅ ∅ empty_otherargs
    = (Raised (Failure "getBlockCoordArrays"),
       <["cornersList" := [(500000, 7000000)%float]]> empty_otherargs)
  /\ (<["cornersList" := [(500000, 7000000)%float]]> empty_otherargs)
       !! "centresList" = Some [].
Proof.
  split; [reflexivity|].
  exact (proj2 (proj2 (proj2
    (@getCoords_outcomes float broken_block ∅ ∅ empty_otherargs [] []
       (Raised (Failure "getBlockCoordArrays"))
       (<["cornersList" := [(500000, 7000000)%float]]> empty_otherargs)
       ltac:(reflexivity) ltac:(reflexivity) ltac:(reflexivity))))).
Defined.

(** The nine blocks of the first [apply], from empty lists. *)
Lemma callbacks_return_iff_witness :
  (exists o', for_each sample_blocks (fun b => getCoords b.1 b.2 ∅)
                empty_otherargs = (Returned tt, o'))
  <-> Forall (fun b => readable b.1) sample_blocks.
Proof.
  exact (proj1 (@callbacks_return_iff float sample_blocks empty_otherargs
                  [] [] ltac:(reflexivity) ltac:(reflexivity))).
Defined.

(** A check whose report raises. *)
Lemma checkCoords_only_reports_witness :
  exists new : list (Event float * option exn),
    trace (checkCoords raising_report_env "1 file, overlap=0" sample_otherargs
             [] [] initial).2 = [] ++ new
    /\ (length new <= 2)%nat.
Proof.
  destruct (@checkCoords_only_reports float float_Number raising_report_env
              "1 file, overlap=0" sample_otherargs [] [] initial _ _
              (surjective_pairing _)) as (_ & _ & _ & _ & new & T & L & _).
  exists new. split; assumption.
Defined.

(** One corner seen, none expected, and a report that raises. *)
Lemma checkCoords_stops_at_raising_report_witness :
  checkCoords raising_report_env "1 file, overlap=0" sample_otherargs
    [] [] initial
  = (Raised (Failure "report"),
     log (corner_mismatch "1 file, overlap=0"
            [(500000, 7000000)%float] [], Some (Failure "report")) initial).
Proof.
  apply (@checkCoords_stops_at_raising_report float float_Number raising_report_env
           "1 file, overlap=0" sample_otherargs [] [] initial
           [(500000, 7000000)%float] (Failure "report")).
  - reflexivity.
  - intros [Hlen _]. discriminate Hlen.
  - reflexivity.
Defined.

(** An accumulator without attributes. *)
Lemma checkCoords_missing_list_witness :
  checkCoords sample_env "1 file, overlap=0" ∅ [] [] initial
  = (Raised AttributeError, initial).
Proof.
  apply (@checkCoords_missing_list float float_Number sample_env "1 file, overlap=0"
           ∅ [] [] initial).
  left. reflexivity.
Defined.

(** The run in the world where every report raises: it ends at the first report, the fifth call. *)
Lemma run_propagates_exceptions_witness :
  exists new,
    trace (@run float float_Number sample_defaults raising_report_env initial).2
      = [] ++ new
    /\ (@run float float_Number sample_defaults raising_report_env initial).1
       = Raised (Failure "report")
    /\ length new = 5%nat.
Proof.
  destruct (@run_propagates_exceptions float float_Number sample_defaults
              raising_report_env initial _ _ (surjective_pairing _))
    as (new & T & P).
  exists new. split; [exact T|]. split; [vm_compute; reflexivity|].
  apply (f_equal length) in T. vm_compute in T. symmetry. exact T.
Defined.

(** The run in the world where every report raises. *)
Lemma run_creates_before_apply_witness :
  exists new,
    trace (@run float float_Number sample_defaults raising_report_env initial).2
      = [] ++ new
    /\ (applies new = [] \/ exists rest, new = @created float sample_defaults ++ rest).
Proof.
  exact (@run_creates_before_apply float float_Number sample_defaults
           raising_report_env initial _ _ (surjective_pairing _)).
Defined.

(** The last two-file block at the sample values. *)
Lemma twofile_is_shifted_subgrid_witness :
  @in_range sample_defaults /\ (1 < 2)%nat /\ (1 < 2)%nat
  /\ @CORNERS_2FILE_OVERLAP2 float float_Number sample_defaults !! 3%nat
     = @to_second_image float float_Number sample_defaults
         <$> @CORNERS_1FILE_OVERLAP2 float float_Number sample_defaults
               !! 4%nat.
Proof.
  assert (Hr : @in_range sample_defaults) by (split; reflexivity).
  split; [exact Hr|]. split; [lia|]. split; [lia|].
  exact (proj1 (twofile_is_shifted_subgrid sample_defaults 1 1 Hr
                  ltac:(lia) ltac:(lia))).
Defined.

(** The second two-file block at the sample values: the second raster
    is created at 501000, 6999000. *)
Lemma twofile_origin_is_second_image_witness :
  @in_range sample_defaults
  /\ (genRampImageFile "ramp2.img" (Some 501000) (Some 6999000), None)
       ∈ @created float sample_defaults
  /\ (0 < 2)%nat /\ (1 < 2)%nat
  /\ @CORNERS_2FILE_OVERLAP2 float float_Number sample_defaults !! 1%nat
     = Some (502980%float, 6999020%float).
Proof.
  assert (Hr : @in_range sample_defaults) by (split; reflexivity).
  assert (Hin : (genRampImageFile "ramp2.img" (Some 501000) (Some 6999000),
                 None) ∈ @created float sample_defaults).
  { apply (list_elem_of_lookup_2 _ 2%nat). reflexivity. }
  split; [exact Hr|]. split; [exact Hin|]. split; [lia|]. split; [lia|].
  exact (twofile_origin_is_second_image sample_defaults 501000 6999000 0 1
           Hr Hin ltac:(lia) ltac:(lia)).
Defined.

(** The sample pixel size is 10. *)
Lemma expected_lists_are_told_apart_witness :
  @in_range sample_defaults
  /\ checkCoordList coord_ne
       (@CORNERS_1FILE_NOOVERLAP float float_Number sample_defaults)
       (@CORNERS_1FILE_OVERLAP2 float float_Number sample_defaults)
     = Returned false.
Proof.
  assert (Hr : @in_range sample_defaults) by (split; reflexivity).
  split; [exact Hr|].
  exact (proj1 (expected_lists_are_told_apart sample_defaults Hr
                  ltac:(discriminate))).
Defined.

(** Binary64 at the sample values. *)
Lemma run_quiet_on_expected_engine_witness :
  @expected_no_nan float float_Number sample_defaults
  /\ exists s',
       @run float float_Number sample_defaults
         (@expected_env float float_Number sample_defaults) initial
         = (Returned (PyBool false), s')
       /\ reports (trace s') = [].
Proof.
  assert (Hn : @expected_no_nan float float_Number sample_defaults).
  { apply in_range_no_nan. split; reflexivity. }
  split; [exact Hn|].
  destruct (@run_quiet_on_expected_engine float float_Number sample_defaults
              initial Hn) as (s' & Hrun & _ & R).
  exists s'. split; [exact Hrun|exact R].
Defined.
